(** * Deepseek_Chat.py: response validation, retry loop, content splitting
      and the chat store, as a shallow embedding.

    Source: [src/Deepseek_Chat.py], classes [ChatManager] and [ChatWorker].

    Python values are modelled as follows.
    - A [str] is the list of its Unicode code points ([list N]); literals
      of the source are written [py "..."].
    - A [dict] used as a map from chat ids is a [gmap]; the dicts with a
      fixed set of keys (messages, catalog entries) are records.
    - A call that may raise returns a [result]; an operation of the
      manager returns its result together with the manager after the
      call, so that whatever was written before a [raise] stays written.
    - The clock ([datetime.now().isoformat()]), the id generator
      ([uuid.uuid4()]) and the model server ([ollama.chat]) are inputs. *)

From Stdlib Require Import String Ascii NArith ZArith List Lia.
From Stdlib Require Import Decimal DecimalNat DecimalFacts.
From stdpp Require Import gmap.
Import ListNotations.

Local Open Scope N_scope.
Local Open Scope nat_scope.
Local Open Scope list_scope.

(** ** Python values *)

Abbreviation str := (list N).

Fixpoint py (s : string) : str :=
  match s with
  | EmptyString => []
  | String a s' => N_of_ascii a :: py s'
  end.

Inductive result (E A : Type) : Type :=
| Ret (a : A)
| Raise (e : E).
Arguments Ret {E A} a.
Arguments Raise {E A} e.

(** [str.isspace] on one code point (CPython's [_PyUnicode_IsWhitespace]). *)
Definition is_space (c : N) : bool :=
  ((9 <=? c) && (c <=? 13) || (28 <=? c) && (c <=? 32)
   || (c =? 133) || (c =? 160) || (c =? 5760)
   || (8192 <=? c) && (c <=? 8202)
   || (c =? 8232) || (c =? 8233) || (c =? 8239) || (c =? 8287)
   || (c =? 12288))%N.

Fixpoint lstrip (s : str) : str :=
  match s with
  | [] => []
  | c :: s' => if is_space c then lstrip s' else s
  end.

(** [s.strip()] *)
Definition strip (s : str) : str := rev (lstrip (rev (lstrip s))).

(** [s.startswith(sep)], returning what follows the prefix. *)
Fixpoint strip_prefix (sep s : str) : option str :=
  match sep, s with
  | [], _ => Some s
  | _ :: _, [] => None
  | a :: sep', c :: s' => if (a =? c)%N then strip_prefix sep' s' else None
  end.

(** [s.partition(sep)] when [sep] occurs: the text before and the text
    after its first occurrence. *)
Fixpoint cut (sep s : str) : option (str * str) :=
  match strip_prefix sep s with
  | Some rest => Some ([], rest)
  | None =>
      match s with
      | [] => None
      | c :: s' =>
          match cut sep s' with
          | Some (a, b) => Some (c :: a, b)
          | None => None
          end
      end
  end.

(** [sep in s] *)
Definition contains (sep s : str) : Prop := exists a b, s = a ++ sep ++ b.

(** [s.split(sep)] for a non-empty [sep]: cut at the first occurrence and
    go on in the rest.  Each cut removes at least one character, so
    [length s] rounds are enough ([split_fuel_enough] below). *)
Fixpoint split_fuel (fuel : nat) (sep s : str) : list str :=
  match cut sep s with
  | None => [s]
  | Some (a, b) =>
      match fuel with
      | O => [s]
      | S fuel' => a :: split_fuel fuel' sep b
      end
  end.

Definition split (sep s : str) : list str := split_fuel (length s) sep s.

(** [str(n)] for a non-negative [int]. *)
Fixpoint digits (u : Decimal.uint) : str :=
  match u with
  | Nil => []
  | D0 u => 48%N :: digits u
  | D1 u => 49%N :: digits u
  | D2 u => 50%N :: digits u
  | D3 u => 51%N :: digits u
  | D4 u => 52%N :: digits u
  | D5 u => 53%N :: digits u
  | D6 u => 54%N :: digits u
  | D7 u => 55%N :: digits u
  | D8 u => 56%N :: digits u
  | D9 u => 57%N :: digits u
  end.

Definition str_of_nat (n : nat) : str := digits (Nat.to_uint n).

(** ** ChatWorker.extract_content_and_thoughts *)

Definition OPEN : str := py "<think>".
Definition CLOSE : str := py "</think>".

Inductive index_error : Type := IndexError.

(** [l[i]] *)
Definition getitem {A} (l : list A) (i : nat) : result index_error A :=
  match nth_error l i with
  | Some x => Ret x
  | None => Raise IndexError
  end.

(** The body of the [try] block. *)
Definition extract_try (content : str) : result index_error (str * str) :=
  let parts := split OPEN content in
  match getitem parts 0 with
  | Raise e => Raise e
  | Ret p0 =>
      let before_think := strip p0 in
      if 1 <? length parts then
        match getitem parts 1 with
        | Raise e => Raise e
        | Ret p1 =>
            let think_parts := split CLOSE p1 in
            match getitem think_parts 0 with
            | Raise e => Raise e
            | Ret t0 =>
                let think_content := strip t0 in
                if 1 <? length think_parts then
                  match getitem think_parts 1 with
                  | Raise e => Raise e
                  | Ret t1 =>
                      let after_think := strip t1 in
                      Ret (strip (before_think ++ py " " ++ after_think),
                           think_content)
                  end
                else Ret (before_think, think_content)
            end
        end
      else Ret (before_think, [])
  end.

Definition extract_content_and_thoughts (content : str) : str * str :=
  match extract_try content with
  | Ret r => r
  | Raise _ => (strip content, [])
  end.


(** ** The part of [xml.etree.ElementTree] that the validator uses *)

(** An [Element]: tag, [text] (character data before the first child,
    [None] when there is none), children, and [tail] (character data
    after the element's end tag, [None] when there is none). *)
#[local] Set Warnings "-register-all".
Inductive Element : Type :=
| Elem (tag : str) (text : option str) (children : list Element)
       (tail : option str).

Definition tag (e : Element) : str := let (t, _, _, _) := e in t.
Definition text (e : Element) : option str := let (_, x, _, _) := e in x.
Definition children (e : Element) : list Element := let (_, _, c, _) := e in c.
Definition tail (e : Element) : option str := let (_, _, _, t) := e in t.

Definition set_tail (s : str) (e : Element) : Element :=
  Elem (tag e) (text e) (children e) (Some s).

(** Python compares elements by identity.  An element of a tree is
    identified here by its position: the child indices on the way down
    from the root. *)
Definition path : Type := list nat.
Definition node : Type := (path * Element)%type.

(** [list(elem)]: the children, each with its position. *)
Definition child_nodes (n : node) : list node :=
  imap (fun i c => (fst n ++ [i], c)) (children (snd n)).

(** [elem.iter()]: the element itself, then its descendants, in document
    order. *)
Fixpoint iter_from (p : path) (e : Element) : list node :=
  match e with
  | Elem _ _ cs _ =>
      (p, e) ::
      (fix over (i : nat) (l : list Element) : list node :=
         match l with
         | [] => []
         | c :: l' => iter_from (p ++ [i]) c ++ over (S i) l'
         end) 0 cs
  end.

Definition iter (tree : Element) : list node := iter_from [] tree.

(** The proper descendants: what the step [.//] ranges over. *)
Definition descendants (tree : Element) : list node := List.tail (iter tree).

Definition str_eqb (a b : str) : bool := bool_decide (a = b).

Definition has_tag (name : str) (n : node) : bool := str_eqb (tag (snd n)) name.

(** [tree.findall('.//name')] *)
Definition findall_descendants (name : str) (tree : Element) : list node :=
  filter (fun n => has_tag name n = true) (descendants tree).

(** [elem.find(name)]: the first child with that tag. *)
Definition find_child (name : str) (n : node) : option node :=
  List.find (has_tag name) (child_nodes n).

(** [tree.find('.//*[name]')]: the first proper descendant that has a
    child with that tag. *)
Definition find_with_child (name : str) (tree : Element) : option node :=
  List.find (fun n => bool_decide (is_Some (find_child name n)))
            (descendants tree).

Definition same_node (a b : node) : bool := bool_decide (fst a = fst b).

(** [l.index(x)]; [None] stands for the [ValueError] of a missing [x]. *)
Fixpoint list_index (x : node) (l : list node) : option nat :=
  match l with
  | [] => None
  | y :: l' => if same_node y x then Some 0 else option_map S (list_index x l')
  end.

(** *** The parser, on the tag-only fragment of XML

    [ET.fromstring] hands the text to expat.  The model covers documents
    made of start tags [<name>], end tags [</name>], empty-element tags
    [<name/>] and character data, over printable ASCII, tab and newline,
    without [&] and []]: no attributes, entities, comments, CDATA,
    processing instructions, name spaces or white space inside a tag.  On
    anything else the model answers [OutsideFragment] and says nothing. *)

Inductive token : Type :=
| TStart (name : str)
| TEnd (name : str)
| TEmpty (name : str)
| TText (s : str).

Definition fragment_char (c : N) : bool :=
  (((c =? 9) || (c =? 10) || (32 <=? c) && (c <=? 126))
   && negb (c =? 38) && negb (c =? 93))%N.

Definition is_letter (c : N) : bool :=
  ((65 <=? c) && (c <=? 90) || (97 <=? c) && (c <=? 122) || (c =? 95))%N.

Definition is_name_char (c : N) : bool :=
  (is_letter c || (48 <=? c) && (c <=? 57) || (c =? 45) || (c =? 46))%N.

Definition is_name (s : str) : bool :=
  match s with
  | [] => false
  | c :: s' => is_letter c && forallb is_name_char s'
  end.

(** What stands between [<] and [>]. *)
Definition classify (inner : str) : option token :=
  if is_name inner then Some (TStart inner)
  else
    match inner with
    | 47%N :: name => if is_name name then Some (TEnd name) else None
    | _ =>
        match rev inner with
        | 47%N :: rname =>
            if is_name (rev rname) then Some (TEmpty (rev rname)) else None
        | _ => None
        end
    end.

Definition text_token (acc : str) : list token :=
  match acc with
  | [] => []
  | _ => [TText acc]
  end.

(** [acc] collects the characters of the current tag ([in_tag]) or of the
    current run of character data. *)
Fixpoint lex (in_tag : bool) (acc : str) (s : str) : option (list token) :=
  match s with
  | [] => if in_tag then None else Some (text_token acc)
  | c :: s' =>
      if in_tag then
        if (c =? 62)%N then
          match classify acc with
          | Some t => option_map (cons t) (lex false [] s')
          | None => None
          end
        else lex true (acc ++ [c]) s'
      else if (c =? 60)%N then
        option_map (app (text_token acc)) (lex true [] s')
      else lex false (acc ++ [c]) s'
  end.

(** An element under construction: its tag, its text, and the children
    closed so far, the latest first. *)
Record frame : Type := Frame {
  f_tag : str;
  f_text : option str;
  f_kids : list Element
}.

Inductive builder : Type :=
| Prolog
| Inside (top : frame) (below : list frame)
| Closed (root : Element).

Definition xml_space (c : N) : bool := ((c =? 32) || (c =? 9) || (c =? 10) || (c =? 13))%N.

(** [TreeBuilder._flush]: character data goes to the text of the open
    element, or to the tail of the child closed last. *)
Definition add_data (s : str) (f : frame) : frame :=
  match f_kids f with
  | [] => Frame (f_tag f) (Some s) []
  | k :: ks => Frame (f_tag f) (f_text f) (set_tail s k :: ks)
  end.

Definition add_kid (e : Element) (f : frame) : frame :=
  Frame (f_tag f) (f_text f) (e :: f_kids f).

Definition close_frame (f : frame) : Element :=
  Elem (f_tag f) (f_text f) (rev (f_kids f)) None.

(** One token; [None] is a well-formedness error. *)
Definition build_step (b : builder) (t : token) : option builder :=
  match b, t with
  | Prolog, TText s => if forallb xml_space s then Some Prolog else None
  | Prolog, TStart n => Some (Inside (Frame n None []) [])
  | Prolog, TEmpty n => Some (Closed (Elem n None [] None))
  | Prolog, TEnd _ => None
  | Inside f below, TText s => Some (Inside (add_data s f) below)
  | Inside f below, TStart n => Some (Inside (Frame n None []) (f :: below))
  | Inside f below, TEmpty n => Some (Inside (add_kid (Elem n None [] None) f) below)
  | Inside f below, TEnd n =>
      if str_eqb n (f_tag f) then
        match below with
        | [] => Some (Closed (close_frame f))
        | g :: below' => Some (Inside (add_kid (close_frame f) g) below')
        end
      else None
  | Closed r, TText s => if forallb xml_space s then Some (Closed r) else None
  | Closed _, _ => None
  end.

Fixpoint build (b : builder) (ts : list token) : option builder :=
  match ts with
  | [] => Some b
  | t :: ts' =>
      match build_step b t with
      | Some b' => build b' ts'
      | None => None
      end
  end.

Inductive parsed : Type :=
| Parsed (tree : Element)
| ParseError
| OutsideFragment.

(** [ET.fromstring] *)
Definition fromstring (s : str) : parsed :=
  if forallb fragment_char s then
    match lex false [] s with
    | None => OutsideFragment
    | Some ts =>
        match build Prolog ts with
        | Some (Closed root) => Parsed root
        | _ => ParseError
        end
    end
  else OutsideFragment.

(** ** ChatWorker.validate_response *)

Definition THINK : str := py "think".

Inductive worker_exn : Type :=
| BackendError (msg : str)
| ValueError (msg : str)
| Exception (msg : str).

(** [str(e)] *)
Definition str_exn (e : worker_exn) : str :=
  match e with
  | BackendError m | ValueError m | Exception m => m
  end.

(** The message of the [ValueError] that [list.index] raises in CPython. *)
Definition NOT_IN_LIST : str := py "list.index(x): x not in list".

(** [not last_think.text or len(last_think.text.strip()) < 10] *)
Definition too_short (t : option str) : bool :=
  match t with
  | None => true
  | Some [] => true
  | Some s => (Z.of_nat (length (strip s)) <? 10)%Z
  end.

(** The statements after the parse. *)
Definition validate_tree (tree : Element) : result worker_exn bool :=
  let think_elements := findall_descendants THINK tree in
  match last think_elements with
  | None => Ret false
  | Some last_think =>
      if too_short (text (snd last_think)) then Ret false
      else
        let last_element :=
          last (filter (fun n => has_tag THINK n = true) (iter tree)) in
        match last_element with
        | None => Ret true
        | Some last_element =>
            match find_with_child THINK tree with
            | None => Ret true
            | Some parent =>
                match list_index last_element (child_nodes parent) with
                | None => Raise (ValueError NOT_IN_LIST)
                | Some think_index =>
                    if (Z.of_nat think_index
                          <? Z.of_nat (length (child_nodes parent)) - 1)%Z
                    then Ret false
                    else Ret true
                end
            end
        end
  end.

(** [f"<root>{content}</root>"] *)
Definition wrap (content : str) : str :=
  py "<root>" ++ content ++ py "</root>".

(** [None]: the wrapped text leaves the fragment of the parser model. *)
Definition validate_response (content : str)
  : option (result worker_exn bool) :=
  match content with
  | [] => Some (Ret false)
  | _ =>
      match fromstring (wrap content) with
      | Parsed tree => Some (validate_tree tree)
      | ParseError => Some (Ret false)
      | OutsideFragment => None
      end
  end.


(** ** ChatWorker.enhance_prompt *)

Definition enhanced_prompts : list str :=
  [ py "IMPORTANT: Your response MUST end with <think></think>";
    py "CRITICAL: You MUST include meaningful thoughts in <think></think> tags at the END of your response";
    py "FINAL REMINDER: Response format must be: [Your answer] followed by <think>your thoughts</think>";
    py "STRICT REQUIREMENT: End your response with detailed thoughts in <think></think> tags";
    py "MANDATORY: Include substantial thoughts (>10 words) in <think></think> tags at the end" ].

Definition enhance_prompt (failed_attempts : nat) : str :=
  nth (Nat.min failed_attempts (length enhanced_prompts - 1))
      enhanced_prompts [].

(** ** ChatWorker.get_valid_response *)

(** A chat message as sent to the model server: [{'role', 'content'}]. *)
Record Message : Type := Msg {
  role : str;
  content : str
}.

Definition SYSTEM : str := py "system".
Definition USER : str := py "user".

(** The fields of a [ChatWorker]. *)
Record ChatWorker : Type := Worker {
  prompt : str;
  message_history : list Message;
  max_retries : nat;
  model : str;
  system_prompt : str
}.

Definition FAILED_TAGS : str :=
  py "Failed to get valid response with proper think tags".

(** [f"Failed to get valid response after {self.max_retries} attempts: {str(e)}"] *)
Definition failed_after (retries : nat) (e : worker_exn) : str :=
  py "Failed to get valid response after " ++ str_of_nat retries
     ++ py " attempts: " ++ str_exn e.

(** [self.message_history[-10:] if len(self.message_history) > 10 else
    self.message_history] *)
Definition recent_history (h : list Message) : list Message :=
  if 10 <? length h then skipn (length h - 10) h else h.

Definition initial_messages (w : ChatWorker) : list Message :=
  [Msg SYSTEM (system_prompt w)] ++ recent_history (message_history w)
    ++ [Msg USER (prompt w)].

Section Retry.
(** The model server: a state of type [B] and the call
    [ollama.chat(model=..., messages=...)], which returns the reply's
    content or raises. *)
Context {B : Type}.
Variable ollama_chat :
  str -> list Message -> B -> result worker_exn str * B.

(** The [for attempt in range(self.max_retries)] loop from [attempt]
    on, with [todo] iterations left.  The outer [option] is [None] when
    a reply leaves the fragment of the parser model. *)
Fixpoint attempts (w : ChatWorker) (todo attempt : nat)
         (messages : list Message) (b : B)
  : option (result worker_exn str) * B :=
  match todo with
  | O => (Some (Raise (Exception FAILED_TAGS)), b)
  | S todo' =>
      let (response, b1) := ollama_chat (model w) messages b in
      let handler (e : worker_exn) :=
        if attempt =? max_retries w - 1
        then (Some (Raise (Exception (failed_after (max_retries w) e))), b1)
        else attempts w todo' (S attempt) messages b1 in
      match response with
      | Raise e => handler e
      | Ret content =>
          match validate_response content with
          | None => (None, b1)
          | Some (Raise e) => handler e
          | Some (Ret true) => (Some (Ret content), b1)
          | Some (Ret false) =>
              attempts w todo' (S attempt)
                (messages ++ [Msg SYSTEM (enhance_prompt attempt);
                              Msg USER (prompt w)])
                b1
          end
      end
  end.

Definition get_valid_response (w : ChatWorker) (b : B)
  : option (result worker_exn str) * B :=
  attempts w (max_retries w) 0 (initial_messages w) b.
End Retry.

(** A scripted model server for exercising the loop: each call records
    the messages it was sent and answers with the next scripted reply;
    when the script is used up the call raises. *)
Record Stub : Type := MkStub {
  script : list (result worker_exn str);
  calls : list (list Message)
}.

Definition SCRIPT_OVER : str := py "no scripted reply left".

Definition stub_chat (model : str) (messages : list Message) (b : Stub)
  : result worker_exn str * Stub :=
  match script b with
  | [] => (Raise (BackendError SCRIPT_OVER), MkStub [] (calls b ++ [messages]))
  | r :: rest => (r, MkStub rest (calls b ++ [messages]))
  end.

Definition count_system (messages : list Message) : nat :=
  length (filter (fun m => role m = SYSTEM) messages).

(** The validator rejects the reply without raising. *)
Definition rejected (c : str) : bool :=
  match validate_response c with
  | Some (Ret false) => true
  | _ => false
  end.

Definition accepted (c : str) : bool :=
  match validate_response c with
  | Some (Ret true) => true
  | _ => false
  end.

(** An attempt that does not end the loop with a reply: the call raises,
    or the validator rejects the reply or raises on it. *)
Definition unsuccessful (r : result worker_exn str) : bool :=
  match r with
  | Raise _ => true
  | Ret c =>
      match validate_response c with
      | Some (Ret false) | Some (Raise _) => true
      | _ => false
      end
  end.

(** An attempt whose reply arrives and is rejected without any
    exception. *)
Definition plainly_rejected (r : result worker_exn str) : bool :=
  match r with
  | Raise _ => false
  | Ret c => rejected c
  end.

(** ** ChatManager *)

(** A stored message: [{'role', 'content', 'timestamp'}]. *)
Record StoredMessage : Type := Stored {
  s_role : str;
  s_content : str;
  s_timestamp : str
}.

(** An entry of [chats_metadata].  The key ['messages'] may be missing
    from an entry read from disk, which [save_message] checks for. *)
Record ChatMeta : Type := Meta {
  created_at : str;
  updated_at : str;
  title : str;
  messages : option (list StoredMessage)
}.

(** The manager and the directory it owns: [chat_files] maps a chat id to
    the ['messages'] list in [chats/<id>.json]; [metadata_file] is the
    content of [chats_metadata.json]; [chats_metadata] is the dict in
    memory.  Ids are uuid strings, so distinct ids name distinct files. *)
Record ChatManager : Type := Manager {
  chat_files : gmap str (list StoredMessage);
  metadata_file : gmap str ChatMeta;
  chats_metadata : gmap str ChatMeta;
  active_chat_id : option str
}.

Inductive store_exn : Type :=
| StoreError (msg : str)
| KeyError (key : str).

Definition not_found (chat_id : str) : str :=
  py "Chat " ++ chat_id ++ py " not found".

Definition NO_ACTIVE : str := py "No active chat".

(** [_save_chats_metadata] *)
Definition save_chats_metadata (m : ChatManager) : ChatManager :=
  Manager (chat_files m) (chats_metadata m) (chats_metadata m)
          (active_chat_id m).

Definition default_title (m : ChatManager) : str :=
  py "Chat " ++ str_of_nat (size (chats_metadata m) + 1).

(** [create_new_chat], with the id and the time it draws. *)
Definition create_new_chat (chat_id timestamp : str) (m : ChatManager)
  : result store_exn (str * str) * ChatManager :=
  let entry := Meta timestamp timestamp (default_title m) (Some []) in
  let m1 := Manager (chat_files m) (metadata_file m)
                    (<[chat_id := entry]> (chats_metadata m))
                    (active_chat_id m) in
  let m2 := Manager (<[chat_id := []]> (chat_files m1)) (metadata_file m1)
                    (chats_metadata m1) (active_chat_id m1) in
  let m3 := save_chats_metadata m2 in
  let m4 := Manager (chat_files m3) (metadata_file m3) (chats_metadata m3)
                    (Some chat_id) in
  (Ret (chat_id, title entry), m4).

Definition load_chat (chat_id : str) (m : ChatManager)
  : result store_exn (list StoredMessage) * ChatManager :=
  match chat_files m !! chat_id with
  | Some msgs =>
      (Ret msgs,
       Manager (chat_files m) (metadata_file m) (chats_metadata m)
               (Some chat_id))
  | None => (Raise (StoreError (not_found chat_id)), m)
  end.

(** [save_message], with the time it reads.  [not self.active_chat_id]
    holds for [None] and for the empty string. *)
Definition save_message (role content timestamp : str) (m : ChatManager)
  : result store_exn unit * ChatManager :=
  match active_chat_id m with
  | None | Some [] => (Raise (StoreError NO_ACTIVE), m)
  | Some active =>
      let message := Stored role content timestamp in
      let chat_data :=
        match chat_files m !! active with
        | Some msgs => msgs
        | None => []
        end in
      let m1 := Manager (<[active := chat_data ++ [message]]> (chat_files m))
                        (metadata_file m) (chats_metadata m)
                        (active_chat_id m) in
      match chats_metadata m1 !! active with
      | None => (Raise (KeyError active), m1)
      | Some e =>
          let e1 := Meta (created_at e) timestamp (title e) (messages e) in
          let e2 :=
            match messages e1 with
            | None => Meta (created_at e1) (updated_at e1) (title e1) (Some [])
            | Some _ => e1
            end in
          let e3 :=
            Meta (created_at e2) (updated_at e2) (title e2)
                 (option_map (fun l => l ++ [message]) (messages e2)) in
          let m2 := Manager (chat_files m1) (metadata_file m1)
                            (<[active := e3]> (chats_metadata m1))
                            (active_chat_id m1) in
          (Ret tt, save_chats_metadata m2)
      end
  end.

(** [get_chat_list], up to the order of the entries. *)
Definition get_chat_list (m : ChatManager) : list (str * str * str) :=
  (fun kv => (fst kv, title (snd kv), updated_at (snd kv)))
    <$> map_to_list (chats_metadata m).

(** [update_chat_title], with the time it reads. *)
Definition update_chat_title (chat_id new_title timestamp : str)
           (m : ChatManager) : result store_exn unit * ChatManager :=
  match chats_metadata m !! chat_id with
  | None => (Raise (StoreError (not_found chat_id)), m)
  | Some e =>
      let e' := Meta (created_at e) timestamp new_title (messages e) in
      (Ret tt,
       save_chats_metadata
         (Manager (chat_files m) (metadata_file m)
                  (<[chat_id := e']> (chats_metadata m)) (active_chat_id m)))
  end.

Definition delete_chat (chat_id : str) (m : ChatManager)
  : result store_exn unit * ChatManager :=
  match chats_metadata m !! chat_id with
  | None => (Raise (StoreError (not_found chat_id)), m)
  | Some _ =>
      let m1 := Manager (delete chat_id (chat_files m)) (metadata_file m)
                        (chats_metadata m) (active_chat_id m) in
      let m2 := Manager (chat_files m1) (metadata_file m1)
                        (delete chat_id (chats_metadata m1))
                        (active_chat_id m1) in
      let m3 := save_chats_metadata m2 in
      (Ret tt,
       if decide (active_chat_id m3 = Some chat_id)
       then Manager (chat_files m3) (metadata_file m3) (chats_metadata m3) None
       else m3)
  end.

(** [ChatManager()] over a directory holding the chat files [files] and,
    when [catalog] is [Some], the metadata file; [chat_id] and
    [timestamp] are drawn only when a first chat is created. *)
Definition init (files : gmap str (list StoredMessage))
           (catalog : option (gmap str ChatMeta)) (chat_id timestamp : str)
  : ChatManager :=
  let on_disk := match catalog with Some c => c | None => ∅ end in
  let m := Manager files on_disk on_disk None in
  if decide (chats_metadata m = ∅) then snd (create_new_chat chat_id timestamp m)
  else m.

(** A manager started in an empty directory. *)
Definition fresh (chat_id timestamp : str) : ChatManager :=
  init ∅ None chat_id timestamp.

(** The calls a client makes, and a run of them; a call that raises
    leaves the manager as it was at the [raise]. *)
Inductive call : Type :=
| Create (chat_id timestamp : str)
| Append (role content timestamp : str)
| Rename (chat_id new_title timestamp : str)
| Delete (chat_id : str)
| Load (chat_id : str).

Definition perform (m : ChatManager) (c : call) : ChatManager :=
  match c with
  | Create i t => snd (create_new_chat i t m)
  | Append r c t => snd (save_message r c t m)
  | Rename i n t => snd (update_chat_title i n t m)
  | Delete i => snd (delete_chat i m)
  | Load i => snd (load_chat i m)
  end.

Definition perform_all (m : ChatManager) (cs : list call) : ChatManager :=
  fold_left perform cs m.

(** The catalog agrees with the records: every catalog entry carries the
    message list of that chat's file, and the metadata file on disk is
    the dict in memory. *)
Definition catalog_matches (m : ChatManager) : Prop :=
  metadata_file m = chats_metadata m /\
  forall chat_id e,
    chats_metadata m !! chat_id = Some e ->
    exists msgs,
      chat_files m !! chat_id = Some msgs /\ messages e = Some msgs.

(** [s.split(sep)[0]]: the text up to the first occurrence of [sep], or
    all of [s] when there is none. *)
Definition before (sep s : str) : str :=
  match cut sep s with
  | Some (a, _) => a
  | None => s
  end.

(** What [extract_content_and_thoughts] computes, by cases on the
    markers. *)
Definition extract_cases (content : str) : str * str :=
  match cut OPEN content with
  | None => (strip content, [])
  | Some (a, b) =>
      let p1 := before OPEN b in
      match cut CLOSE p1 with
      | None => (strip a, strip p1)
      | Some (r, t) =>
          (strip (strip a ++ py " " ++ strip (before CLOSE t)), strip r)
      end
  end.

(** The element at a position of the tree. *)
Fixpoint subtree (e : Element) (p : path) : option Element :=
  match p with
  | [] => Some e
  | i :: p' =>
      match nth_error (children e) i with
      | Some c => subtree c p'
      | None => None
      end
  end.

(** The last reasoning block of the reply, in document order. *)
Definition last_think (tree : Element) : option node :=
  last (findall_descendants THINK tree).

(** The elements that follow a node under its parent. *)
Definition later_siblings (tree : Element) (n : node) : list Element :=
  match fst n with
  | [] => []
  | _ =>
      match subtree tree (removelast (fst n)) with
      | Some parent => skipn (S (List.last (fst n) 0)) (children parent)
      | None => []
      end
  end.

(** Replies in which content follows the last reasoning block under its
    parent: an element, and plain text. *)
Definition REPLY_SIBLING : str :=
  py "<think>sufficiently long reasoning text</think><b>more</b>".
Definition REPLY_TRAILING : str :=
  py "<think>sufficiently long reasoning text</think> trailing".
Definition REPLY_NESTED : str :=
  py "<a><think>sufficiently long reasoning text</think><b>more</b></a>".

(** The message names the retry budget: it contains [str(retries)]. *)
Definition names_budget (msg : str) (retries : nat) : Prop :=
  contains (str_of_nat retries) msg.

Definition is_digit (c : N) : bool := ((48 <=? c) && (c <=? 57))%N.

(** What a run of calls from a fresh manager maintains: the catalog
    agrees with the records, every record has a catalog entry, and the
    active chat, if any, has one too. *)
Definition store_invariant (m : ChatManager) : Prop :=
  catalog_matches m /\
  (forall chat_id,
     is_Some (chat_files m !! chat_id) ->
     is_Some (chats_metadata m !! chat_id)) /\
  (forall a, active_chat_id m = Some a -> is_Some (chats_metadata m !! a)).

(** What one rejected attempt appends to the messages. *)
Definition escalation (w : ChatWorker) (attempt : nat) : list Message :=
  [Msg SYSTEM (enhance_prompt attempt); Msg USER (prompt w)].

(** The message lists sent on [k] attempts in a row, from [attempt] on,
    when each of them is rejected. *)
Fixpoint sent (w : ChatWorker) (attempt k : nat) (messages : list Message)
  : list (list Message) :=
  match k with
  | O => []
  | S k' => messages :: sent w (S attempt) k' (messages ++ escalation w attempt)
  end.

(** The messages after [k] rejected attempts in a row. *)
Fixpoint escalated (w : ChatWorker) (attempt k : nat)
         (messages : list Message) : list Message :=
  match k with
  | O => messages
  | S k' => escalated w (S attempt) k' (messages ++ escalation w attempt)
  end.

(** A worker as [ChatWorker.__init__] sets it up, with a prompt. *)
Definition example_worker : ChatWorker :=
  Worker (py "hi") [] 10 (py "deepseek-r1:7b")
         (py "You are a helpful AI assistant.").

Definition GOOD_REPLY : str :=
  py "answer <think>sufficiently long reasoning text</think>".
Definition BAD_REPLY : str := py "no blocks here".

(** A manager over an empty directory, before any chat is created. *)
Definition empty_manager : ChatManager := Manager ∅ ∅ ∅ None.

(** The run of C10: create [a], create [b], delete [a], create [c]. *)
Definition create_create_delete_create (a b c ta tb tc : str) : list call :=
  [Create a ta; Create b tb; Delete a; Create c tc].

(** A server of any kind, taken through the requests [reqs] one after
    the other from the state [b], answers [replies] and ends in [b']. *)
Fixpoint serves {B : Type}
         (chat : str -> list Message -> B -> result worker_exn str * B)
         (model : str) (reqs : list (list Message))
         (replies : list (result worker_exn str)) (b b' : B) : Prop :=
  match reqs, replies with
  | [], [] => b = b'
  | q :: reqs', r :: replies' =>
      exists b1, chat model q b = (r, b1)
                 /\ serves chat model reqs' replies' b1 b'
  | _, _ => False
  end.

(** [s.rstrip()], the second half of [strip]. *)
Definition rstrip (s : str) : str := rev (lstrip (rev s)).

(** Text without the character [<]. *)
Definition markup_free (s : str) : bool :=
  forallb (fun c => negb (c =? 60)%N) s.

(** Text that is character data of the parser's fragment: no [<], and
    only characters of the fragment. *)
Definition plain (s : str) : bool :=
  forallb (fun c => fragment_char c && negb (c =? 60)%N) s.

Definition ROOT : str := py "root".

(** The tree of a reply made of an answer, one reasoning block and
    trailing text; empty character data leaves [None]. *)
Definition data (s : str) : option str :=
  match s with
  | [] => None
  | _ => Some s
  end.

Definition one_block_tree (a r t : str) : Element :=
  Elem ROOT (data a) [Elem THINK (data r) [] (data t)] None.

(** The exception an attempt ends with, if any: the one the call
    raises, or the one the validator raises on the reply. *)
Definition attempt_exn (r : result worker_exn str) : option worker_exn :=
  match r with
  | Raise e => Some e
  | Ret c =>
      match validate_response c with
      | Some (Raise e) => Some e
      | _ => None
      end
  end.

(** Each message list of the log starts with the one before it. *)
Fixpoint growing (l : list (list Message)) : Prop :=
  match l with
  | a :: (b :: _) as rest => a `prefix_of` b /\ growing rest
  | _ => True
  end.

(** ** ChatWorker.run *)

(** The signal the worker emits: [finished] or [error]. *)
Inductive signal : Type :=
| EmitFinished (main_content thoughts : str)
| EmitError (msg : str).

(** [run]; [None] as for [get_valid_response]. *)
Definition run {B : Type}
           (ollama_chat : str -> list Message -> B -> result worker_exn str * B)
           (w : ChatWorker) (b : B) : option signal * B :=
  match get_valid_response ollama_chat w b with
  | (None, b') => (None, b')
  | (Some (Ret content), b') =>
      let (main_content, thoughts) := extract_content_and_thoughts content in
      (Some (EmitFinished main_content thoughts), b')
  | (Some (Raise e), b') => (Some (EmitError (str_exn e)), b')
  end.

(** [set_prompt] *)
Definition set_prompt (prompt : str) (history : list Message) (w : ChatWorker)
  : ChatWorker :=
  Worker prompt history (max_retries w) (model w) (system_prompt w).

(** The tree of a reply that opens with a reasoning block, goes on with
    text and ends with a second reasoning block. *)
Definition two_block_tree (r0 a r : str) : Element :=
  Elem ROOT None
       [Elem THINK (data r0) [] (data a); Elem THINK (data r) [] None] None.

(** [save_message] once for each message of a list, in order. *)
Definition save_all (msgs : list StoredMessage) (m : ChatManager)
  : ChatManager :=
  fold_left
    (fun m x => snd (save_message (s_role x) (s_content x) (s_timestamp x) m))
    msgs m.

(** [d.get(k, [])] on an optional list. *)
Definition or_empty {A : Type} (o : option (list A)) : list A :=
  match o with
  | Some l => l
  | None => []
  end.

(** A manager started in a directory that holds the record of an
    earlier chat but no catalog file, after that record was loaded. *)
Definition orphan_manager : ChatManager :=
  snd (load_chat (py "old")
         (init {[py "old" := []]} None (py "c1") (py "t0"))).

(** ** MainWindow and ChatHistoryPanel: the manager and the history

    Of the window only what decides the stored chats and the history sent
    to the model is kept: the manager, [self.message_history] and the
    ids that have a button in the history panel.  The widgets are left
    out.  The field [history] is [message_history] of the source. *)
Record MainWindow : Type := Window {
  chat_manager : ChatManager;
  history : list Message;
  chat_buttons : gset str
}.

Definition ASSISTANT : str := py "assistant".

(** [[{'role': msg['role'], 'content': msg['content']} for msg in messages]] *)
Definition project (msgs : list StoredMessage) : list Message :=
  map (fun x => Msg (s_role x) (s_content x)) msgs.

(** [MainWindow.create_new_chat] *)
Definition window_create_new_chat (chat_id timestamp : str) (win : MainWindow)
  : MainWindow :=
  let (_, m) := create_new_chat chat_id timestamp (chat_manager win) in
  Window m [] ({[chat_id]} ∪ chat_buttons win).

(** [MainWindow.load_chat] (and [ChatHistoryPanel.switch_chat], which
    calls it): an exception of the manager is shown, not raised. *)
Definition window_load_chat (chat_id : str) (win : MainWindow) : MainWindow :=
  match load_chat chat_id (chat_manager win) with
  | (Ret msgs, m) => Window m (project msgs) (chat_buttons win)
  | (Raise _, m) => Window m (history win) (chat_buttons win)
  end.

(** What [send_message] draws from outside: the id and time of a chat it
    may have to create, the time of the save, and for the title of a new
    chat the outcome of the title request with its clean-up ([titled]:
    the cleaned title, or the exception; that part of the source is not
    modelled), the time of the renaming, and the clock reading and time
    of the fallback renaming. *)
Record send_inputs : Type := SendInputs {
  new_chat_id : str;
  created : str;
  saved : str;
  titled : result worker_exn str;
  retitled : str;
  clock : str;
  retitled_fallback : str
}.

(** [len(self.chat_manager.chats_metadata[active]['messages']) == 1];
    the lookups cannot fail right after a [save_message] that
    returned. *)
Definition is_new_chat (m : ChatManager) : result store_exn bool :=
  match active_chat_id m with
  | None => Raise (KeyError (py "None"))
  | Some a =>
      match chats_metadata m !! a with
      | None => Raise (KeyError a)
      | Some e =>
          match messages e with
          | None => Raise (KeyError (py "messages"))
          | Some l => Ret (length l =? 1)
          end
      end
  end.

(** [update_chat_title(self.chat_manager.active_chat_id, title)] *)
Definition retitle (new_title timestamp : str) (m : ChatManager)
  : result store_exn unit * ChatManager :=
  match active_chat_id m with
  | Some a => update_chat_title a new_title timestamp m
  | None => (Raise (StoreError (not_found (py "None"))), m)
  end.

(** [f"New Chat {datetime.now().strftime('%H:%M')}"] *)
Definition fallback_title (clock : str) : str := py "New Chat " ++ clock.

(** The [try] / [except] that titles a new chat. *)
Definition title_step (i : send_inputs) (m : ChatManager)
  : result store_exn unit * ChatManager :=
  match titled i with
  | Raise _ => retitle (fallback_title (clock i)) (retitled_fallback i) m
  | Ret new_title =>
      match retitle new_title (retitled i) m with
      | (Ret u, m') => (Ret u, m')
      | (Raise _, m') =>
          retitle (fallback_title (clock i)) (retitled_fallback i) m'
      end
  end.

(** [MainWindow.send_message] on the text of the input box.  The result
    is [None] when nothing is sent, and otherwise the arguments of
    [chat_worker.set_prompt], after which the worker is started. *)
Definition send_message (text : str) (i : send_inputs) (win : MainWindow)
  : result store_exn (option (str * list Message)) * MainWindow :=
  let message := strip text in
  match message with
  | [] => (Ret None, win)
  | _ =>
      let win1 :=
        match active_chat_id (chat_manager win) with
        | None => window_create_new_chat (new_chat_id i) (created i) win
        | Some _ => win
        end in
      match save_message USER message (saved i) (chat_manager win1) with
      | (Raise e, m2) => (Raise e, Window m2 (history win1) (chat_buttons win1))
      | (Ret _, m2) =>
          let h2 := history win1 ++ [Msg USER message] in
          match is_new_chat m2 with
          | Raise e => (Raise e, Window m2 h2 (chat_buttons win1))
          | Ret false =>
              (Ret (Some (message, h2)), Window m2 h2 (chat_buttons win1))
          | Ret true =>
              match title_step i m2 with
              | (Raise e, m3) => (Raise e, Window m3 h2 (chat_buttons win1))
              | (Ret _, m3) =>
                  (Ret (Some (message, h2)), Window m3 h2 (chat_buttons win1))
              end
          end
      end
  end.

(** [MainWindow.handle_response] *)
Definition handle_response (response timestamp : str) (win : MainWindow)
  : result store_exn unit * MainWindow :=
  match save_message ASSISTANT response timestamp (chat_manager win) with
  | (Raise e, m) => (Raise e, Window m (history win) (chat_buttons win))
  | (Ret _, m) =>
      (Ret tt,
       Window m (history win ++ [Msg ASSISTANT response]) (chat_buttons win))
  end.

(** [ChatHistoryPanel.delete_chat], with the answer to the confirmation
    box and the id and time of the chat created when no button is
    left. *)
Definition panel_delete_chat (chat_id : str) (confirmed : bool)
           (new_id timestamp : str) (win : MainWindow) : MainWindow :=
  if confirmed then
    match delete_chat chat_id (chat_manager win) with
    | (Raise _, m) => Window m (history win) (chat_buttons win)
    | (Ret _, m) =>
        let win1 := Window m (history win) (chat_buttons win ∖ {[chat_id]}) in
        if decide (chat_buttons win1 = ∅)
        then window_create_new_chat new_id timestamp win1
        else win1
    end
  else win.

(** [ChatHistoryPanel.rename_chat], with the text and the answer of the
    input dialog. *)
Definition panel_rename_chat (chat_id new_title : str) (ok : bool)
           (timestamp : str) (win : MainWindow) : MainWindow :=
  if decide (chat_id ∈ chat_buttons win) then
    match ok, new_title with
    | true, _ :: _ =>
        Window (snd (update_chat_title chat_id new_title timestamp
                       (chat_manager win)))
               (history win) (chat_buttons win)
    | _, _ => win
    end
  else win.

(** [MainWindow.__init__]: the manager is started, the panel gets a
    button for every chat of the catalog, and a chat is created if the
    list of chats is empty. *)
Definition window_init (files : gmap str (list StoredMessage))
           (catalog : option (gmap str ChatMeta))
           (chat_id timestamp new_id created : str) : MainWindow :=
  let m := init files catalog chat_id timestamp in
  let win := Window m [] (dom (chats_metadata m)) in
  match get_chat_list m with
  | [] => window_create_new_chat new_id created win
  | _ => win
  end.

(** What the user and the worker do to a window. *)
Inductive action : Type :=
| NewChat (chat_id timestamp : str)
| Switch (chat_id : str)
| Send (text : str) (i : send_inputs)
| Response (response timestamp : str)
| PanelDelete (chat_id : str) (confirmed : bool) (new_id timestamp : str)
| PanelRename (chat_id new_title : str) (ok : bool) (timestamp : str).

Definition act (win : MainWindow) (a : action) : MainWindow :=
  match a with
  | NewChat i t => window_create_new_chat i t win
  | Switch i => window_load_chat i win
  | Send text i => snd (send_message text i win)
  | Response r t => snd (handle_response r t win)
  | PanelDelete i c n t => panel_delete_chat i c n t win
  | PanelRename i n ok t => panel_rename_chat i n ok t win
  end.

(** While a chat is active, the history is the record of that chat,
    reduced to roles and contents. *)
Definition window_invariant (win : MainWindow) : Prop :=
  store_invariant (chat_manager win) /\
  forall a, active_chat_id (chat_manager win) = Some a ->
    exists msgs,
      chat_files (chat_manager win) !! a = Some msgs /\
      history win = project msgs.

(** The inputs of a [send_message] whose title request fails. *)
Definition example_inputs : send_inputs :=
  SendInputs (py "c2") (py "t1") (py "t2")
             (Raise (BackendError (py "connection refused")))
             (py "t3") (py "09:30") (py "t4").

Definition example_window : MainWindow :=
  window_init ∅ None (py "c1") (py "t0") (py "c9") (py "t9").

(** * Properties *)

(** ** Strings *)

Lemma strip_prefix_Some sep s r :
  strip_prefix sep s = Some r <-> s = sep ++ r.
Proof.
  revert s. induction sep as [|a sep IH]; intros s; simpl.
  - split; congruence.
  - destruct s as [|c s]; [split; discriminate|].
    destruct (N.eqb_spec a c) as [->|Hne].
    + rewrite IH. split; congruence.
    + split; [discriminate|]. intros [= ? _]. congruence.
Qed.

Lemma cut_Some sep s a b : cut sep s = Some (a, b) -> s = a ++ sep ++ b.
Proof.
  revert a. induction s as [|c s IH]; intros a.
  - simpl. destruct (strip_prefix sep []) eqn:E; [|discriminate].
    intros [= <- <-]. apply strip_prefix_Some in E. exact E.
  - simpl. destruct (strip_prefix sep (c :: s)) eqn:E.
    + intros [= <- <-]. apply strip_prefix_Some in E. exact E.
    + destruct (cut sep s) as [[a' b']|] eqn:C; [|discriminate].
      intros [= <- <-]. simpl. f_equal. apply IH. reflexivity.
Qed.

Lemma cut_app sep a b : is_Some (cut sep (a ++ sep ++ b)).
Proof.
  induction a as [|c a IH].
  - simpl app. destruct (sep ++ b) eqn:E; simpl.
    + destruct (strip_prefix sep []) eqn:P; [eauto|].
      assert (H : strip_prefix sep [] = Some b)
        by (apply strip_prefix_Some; congruence).
      congruence.
    + assert (H : strip_prefix sep (n :: l) = Some b)
        by (apply strip_prefix_Some; congruence).
      rewrite H. eauto.
  - simpl. destruct (strip_prefix sep (c :: a ++ sep ++ b)); [eauto|].
    destruct IH as [[x y] ->]. eauto.
Qed.

Lemma cut_None_iff sep s : cut sep s = None <-> ~ contains sep s.
Proof.
  split.
  - intros H (a & b & ->). destruct (cut_app sep a b) as [x Hx]. congruence.
  - intros H. destruct (cut sep s) as [[a b]|] eqn:C; [|reflexivity].
    exfalso. apply H. exists a, b. apply cut_Some. exact C.
Qed.

Lemma cut_contains sep s : is_Some (cut sep s) <-> contains sep s.
Proof.
  split.
  - intros [[a b] H]. exists a, b. apply cut_Some. exact H.
  - intros (a & b & ->). apply cut_app.
Qed.

(** [cut] stops at the first occurrence. *)
Lemma cut_first sep s a b :
  cut sep s = Some (a, b) ->
  forall a' b', s = a' ++ sep ++ b' -> length a <= length a'.
Proof.
  revert a. induction s as [|c s IH]; intros a H a' b' E.
  - simpl in H. destruct (strip_prefix sep []); [|discriminate].
    injection H as <- _. simpl. lia.
  - simpl in H. destruct (strip_prefix sep (c :: s)) eqn:P.
    + injection H as <- _. simpl. lia.
    + destruct (cut sep s) as [[a0 b0]|] eqn:C; [|discriminate].
      injection H as <- <-.
      destruct a' as [|c' a''].
      * simpl in E. apply strip_prefix_Some in E. congruence.
      * simpl in E. injection E as _ E. simpl.
        specialize (IH a0 eq_refl a'' b' E). lia.
Qed.

Lemma cut_shorter sep s a b :
  sep <> [] -> cut sep s = Some (a, b) -> length b < length s.
Proof.
  intros Hne H. apply cut_Some in H. subst s.
  rewrite !length_app. destruct sep; [congruence|]. simpl. lia.
Qed.

Lemma split_fuel_irrelevant sep :
  sep <> [] ->
  forall f1 f2 s,
    length s <= f1 -> length s <= f2 ->
    split_fuel f1 sep s = split_fuel f2 sep s.
Proof.
  intros Hne. induction f1 as [|f1 IH]; intros f2 s H1 H2.
  - destruct s; [|simpl in H1; lia].
    assert (C : cut sep [] = None).
    { destruct (cut sep []) as [[a b]|] eqn:C; [|reflexivity].
      apply cut_shorter in C; [simpl in C; lia | exact Hne]. }
    destruct f2; unfold split_fuel; rewrite C; reflexivity.
  - simpl. destruct (cut sep s) as [[a b]|] eqn:C.
    + pose proof (cut_shorter _ _ _ _ Hne C) as Hlt.
      destruct f2; [lia|]. simpl. rewrite C. f_equal. apply IH; lia.
    + destruct f2; simpl; rewrite C; reflexivity.
Qed.

(** The fuel [length s] is enough: [split] satisfies the equation of
    [str.split]. *)
Lemma split_fuel_enough sep s :
  sep <> [] ->
  split sep s =
  match cut sep s with
  | None => [s]
  | Some (a, b) => a :: split sep b
  end.
Proof.
  intros Hne. unfold split.
  destruct (cut sep s) as [[a b]|] eqn:C.
  - pose proof (cut_shorter _ _ _ _ Hne C) as Hlt.
    destruct (length s) as [|n] eqn:L; [lia|].
    simpl. rewrite C. f_equal. apply split_fuel_irrelevant; [exact Hne|lia|lia].
  - destruct (length s); simpl; rewrite C; reflexivity.
Qed.

Lemma split_head sep s :
  sep <> [] -> exists rest, split sep s = before sep s :: rest.
Proof.
  intros Hne. rewrite split_fuel_enough by exact Hne. unfold before.
  destruct (cut sep s) as [[a b]|]; eauto.
Qed.

Lemma OPEN_nonempty : OPEN <> [].
Proof. discriminate. Qed.

Lemma CLOSE_nonempty : CLOSE <> [].
Proof. discriminate. Qed.

(** ** The splitter *)

Lemma extract_try_cases content :
  extract_try content = Ret (extract_cases content).
Proof.
  unfold extract_try, extract_cases.
  rewrite (split_fuel_enough OPEN content OPEN_nonempty).
  destruct (cut OPEN content) as [[a b]|] eqn:C; [|reflexivity].
  destruct (split_head OPEN b OPEN_nonempty) as [rest ->].
  cbn [getitem nth_error length Nat.ltb Nat.leb].
  rewrite (split_fuel_enough CLOSE (before OPEN b) CLOSE_nonempty).
  destruct (cut CLOSE (before OPEN b)) as [[r t]|] eqn:D; [|reflexivity].
  destruct (split_head CLOSE t CLOSE_nonempty) as [rest' ->].
  reflexivity.
Qed.

Lemma extract_cases_ok content :
  extract_content_and_thoughts content = extract_cases content.
Proof.
  unfold extract_content_and_thoughts. rewrite extract_try_cases. reflexivity.
Qed.

Lemma contains_before sep x s : contains x (before sep s) -> contains x s.
Proof.
  unfold before. destruct (cut sep s) as [[a b]|] eqn:C; [|tauto].
  apply cut_Some in C. intros (u & v & ->). subst s.
  exists u, (v ++ sep ++ b). rewrite <- !app_assoc. reflexivity.
Qed.

Lemma contains_suffix x a s : contains x s -> contains x (a ++ s).
Proof.
  intros (u & v & ->). exists (a ++ u), v. rewrite <- app_assoc. reflexivity.
Qed.

(** C5 (amended).  [extract_content_and_thoughts] is total: on every
    string the [try] block returns and the handler is never entered.
    When the text holds an opening marker and no closing marker, the
    answer is the trimmed text before the first opening marker and the
    reasoning is the trimmed text that follows it, up to the next opening
    marker or the end of the text. *)
Theorem split_total_unterminated (content : str) :
  extract_try content = Ret (extract_content_and_thoughts content) /\
  (contains OPEN content -> ~ contains CLOSE content ->
   exists a b,
     cut OPEN content = Some (a, b) /\
     extract_content_and_thoughts content = (strip a, strip (before OPEN b))).
Proof.
  split.
  - rewrite extract_cases_ok. apply extract_try_cases.
  - intros Hopen Hclose. apply cut_contains in Hopen.
    destruct Hopen as [[a b] C]. exists a, b. split; [exact C|].
    rewrite extract_cases_ok. unfold extract_cases. rewrite C.
    destruct (cut CLOSE (before OPEN b)) as [[r t]|] eqn:D; [|reflexivity].
    exfalso. apply Hclose. apply cut_Some in C. rewrite C.
    do 2 apply contains_suffix.
    apply contains_before with (sep := OPEN).
    apply cut_contains. rewrite D. eauto.
Qed.

Lemma split_total_unterminated_witness :
  exists a b,
    cut OPEN (py "a <think>b c") = Some (a, b) /\
    extract_content_and_thoughts (py "a <think>b c")
    = (strip a, strip (before OPEN b)).
Proof.
  apply (proj2 (split_total_unterminated (py "a <think>b c"))).
  - exists (py "a "), (py "b c"). reflexivity.
  - apply cut_None_iff. vm_compute. reflexivity.
Defined.

(** C5, as stated, fails: this text holds an opening marker and no
    closing marker, and the reasoning returned for it is not empty. *)
Lemma split_unterminated_reasoning_not_empty :
  contains OPEN (py "a <think>b c") /\
  ~ contains CLOSE (py "a <think>b c") /\
  extract_content_and_thoughts (py "a <think>b c") = (py "a", py "b c") /\
  snd (extract_content_and_thoughts (py "a <think>b c")) <> [].
Proof.
  split; [exists (py "a "), (py "b c"); reflexivity|].
  split; [apply cut_None_iff; vm_compute; reflexivity|].
  split; [vm_compute; reflexivity|].
  vm_compute. discriminate.
Qed.

(** C7.  [split("Hello <think>because</think> world")] is
    [("Hello world", "because")] and [split("plain text")] is
    [("plain text", "")]; in general, when the first opening marker is
    followed by a closing marker, the text after that closing marker is
    trimmed and joined by one space onto the trimmed text before the
    opening marker, and the reasoning is the trimmed text between the
    two. *)
Theorem split_examples :
  extract_content_and_thoughts (py "Hello <think>because</think> world")
  = (py "Hello world", py "because") /\
  extract_content_and_thoughts (py "plain text") = (py "plain text", py "") /\
  (forall content a b r t,
     cut OPEN content = Some (a, b) ->
     cut CLOSE (before OPEN b) = Some (r, t) ->
     extract_content_and_thoughts content
     = (strip (strip a ++ py " " ++ strip (before CLOSE t)), strip r)).
Proof.
  split; [vm_compute; reflexivity|].
  split; [vm_compute; reflexivity|].
  intros content a b r t C D.
  rewrite extract_cases_ok. unfold extract_cases. rewrite C, D. reflexivity.
Qed.

Lemma split_examples_witness :
  extract_content_and_thoughts (py "Hello <think>because</think> world")
  = (strip (strip (py "Hello ") ++ py " " ++ strip (before CLOSE (py " world"))),
     strip (py "because")).
Proof.
  apply (proj2 (proj2 split_examples)) with (b := py "because</think> world").
  - vm_compute. reflexivity.
  - vm_compute. reflexivity.
Defined.

(** ** The validator *)

(** C4.  The validator accepts
    ["answer <think>sufficiently long reasoning text</think>"] and
    rejects ["<think>short</think> trailing"], ["no blocks here"] and
    ["<think>tiny</think>"]. *)
Theorem validate_examples :
  validate_response
    (py "answer <think>sufficiently long reasoning text</think>")
  = Some (Ret true) /\
  validate_response (py "<think>short</think> trailing") = Some (Ret false) /\
  validate_response (py "no blocks here") = Some (Ret false) /\
  validate_response (py "<think>tiny</think>") = Some (Ret false).
Proof. repeat split; vm_compute; reflexivity. Qed.

(** How the four replies of C4 are read: the accepted one is a root
    with a single reasoning block as its only child. *)
Lemma validate_examples_trees :
  fromstring (wrap (py "answer <think>sufficiently long reasoning text</think>"))
  = Parsed (Elem (py "root") (Some (py "answer "))
              [Elem THINK (Some (py "sufficiently long reasoning text")) [] None]
              None) /\
  fromstring (wrap (py "<think>short</think> trailing"))
  = Parsed (Elem (py "root") None
              [Elem THINK (Some (py "short")) [] (Some (py " trailing"))]
              None) /\
  fromstring (wrap (py "no blocks here"))
  = Parsed (Elem (py "root") (Some (py "no blocks here")) [] None) /\
  fromstring (wrap (py "<think>tiny</think>"))
  = Parsed (Elem (py "root") None [Elem THINK (Some (py "tiny")) [] None] None).
Proof. repeat split; vm_compute; reflexivity. Qed.

(** C2, evaluated on the code.  In [REPLY_SIBLING] the wrapped text
    parses, its last reasoning block is the first child of the root and
    an element [<b>] follows it under the same parent; in
    [REPLY_TRAILING] text follows the block.  The validator accepts
    both: [tree.find('.//*[think]')] looks for the parent among the
    proper descendants of the root, so for a block directly under the
    root no parent is found and the position check is skipped. *)
Theorem validate_accepts_content_after_last_think :
  (exists tree n,
     fromstring (wrap REPLY_SIBLING) = Parsed tree /\
     last_think tree = Some n /\
     later_siblings tree n = [Elem (py "b") (Some (py "more")) [] None] /\
     find_with_child THINK tree = None /\
     validate_response REPLY_SIBLING = Some (Ret true)) /\
  (exists tree n,
     fromstring (wrap REPLY_TRAILING) = Parsed tree /\
     last_think tree = Some n /\
     tail (snd n) = Some (py " trailing") /\
     validate_response REPLY_TRAILING = Some (Ret true)).
Proof.
  split.
  - eexists. eexists.
    split; [vm_compute; reflexivity|].
    split; [vm_compute; reflexivity|].
    repeat split; vm_compute; reflexivity.
  - eexists. eexists.
    split; [vm_compute; reflexivity|].
    split; [vm_compute; reflexivity|].
    repeat split; vm_compute; reflexivity.
Qed.

(** The position check does reject when the block's parent is below the
    root. *)
Lemma validate_rejects_nested_sibling :
  validate_response REPLY_NESTED = Some (Ret false).
Proof. vm_compute. reflexivity. Qed.

(** The validator can raise: the parent found is the first element with
    a reasoning block among its children, which need not be the parent
    of the last block. *)
Lemma validate_can_raise :
  validate_response
    (py "<a><think>x</think></a><think>sufficiently long reasoning text</think>")
  = Some (Raise (ValueError NOT_IN_LIST)).
Proof. vm_compute. reflexivity. Qed.

(** ** The retry loop *)

Lemma rejected_validate c :
  rejected c = true -> validate_response c = Some (Ret false).
Proof.
  unfold rejected.
  destruct (validate_response c) as [[[|]|]|]; congruence.
Qed.

Lemma accepted_validate c :
  accepted c = true -> validate_response c = Some (Ret true).
Proof.
  unfold accepted.
  destruct (validate_response c) as [[[|]|]|]; congruence.
Qed.

(** A run of rejected replies: one call per attempt, and the messages
    grow by one escalation per attempt. *)
Lemma attempts_rejected w rest :
  forall bad todo attempt msgs cs,
    forallb rejected bad = true ->
    attempts stub_chat w (length bad + todo) attempt msgs
             (MkStub (map Ret bad ++ rest) cs)
    = attempts stub_chat w todo (attempt + length bad)
               (escalated w attempt (length bad) msgs)
               (MkStub rest (cs ++ sent w attempt (length bad) msgs)).
Proof.
  induction bad as [|c bad IH]; intros todo attempt msgs cs Hbad.
  - simpl. rewrite Nat.add_0_r, app_nil_r. reflexivity.
  - simpl in Hbad. apply andb_prop in Hbad as [Hc Hbad].
    cbn [length map app Nat.add attempts stub_chat script calls].
    rewrite (rejected_validate c Hc).
    rewrite IH by exact Hbad.
    cbn [sent escalated]. unfold escalation.
    rewrite <- app_assoc. cbn [app].
    replace (S attempt + length bad) with (attempt + S (length bad)) by lia.
    reflexivity.
Qed.

Lemma sent_length w : forall k attempt msgs, length (sent w attempt k msgs) = k.
Proof.
  induction k as [|k IH]; intros attempt msgs; simpl; [reflexivity|].
  rewrite IH. reflexivity.
Qed.

Lemma sent_snoc w :
  forall k attempt msgs,
    sent w attempt (S k) msgs
    = sent w attempt k msgs ++ [escalated w attempt k msgs].
Proof.
  induction k as [|k IH]; intros attempt msgs; [reflexivity|].
  change (sent w attempt (S (S k)) msgs)
    with (msgs :: sent w (S attempt) (S k) (msgs ++ escalation w attempt)).
  rewrite IH. reflexivity.
Qed.

(** Consecutive message lists of such a run differ by one escalation. *)
Lemma sent_step w :
  forall k attempt msgs i prev,
    S i < k ->
    sent w attempt k msgs !! i = Some prev ->
    sent w attempt k msgs !! S i = Some (prev ++ escalation w (attempt + i)).
Proof.
  induction k as [|k IH]; intros attempt msgs i prev Hlt Hprev; [lia|].
  destruct i as [|i].
  - simpl in Hprev. injection Hprev as <-.
    destruct k as [|k]; [lia|]. simpl. rewrite Nat.add_0_r. reflexivity.
  - simpl in Hprev. simpl.
    replace (attempt + S i) with (S attempt + i) by lia.
    apply IH; [lia|exact Hprev].
Qed.

Lemma count_system_escalation w attempt msgs :
  count_system (msgs ++ escalation w attempt) = S (count_system msgs).
Proof.
  unfold count_system, escalation.
  rewrite filter_app, length_app. simpl.
  rewrite Nat.add_comm. reflexivity.
Qed.

(** C1.  With [max_retries = 10], against a server whose first nine
    replies are rejected by the validator and whose tenth is accepted,
    [get_valid_response] returns the tenth reply, has called the server
    exactly ten times (once per attempt), and the messages sent on each
    of the attempts 2 to 10 are those of the attempt before followed by
    one escalation, so they hold exactly one more system entry. *)
Theorem retry_succeeds_on_tenth_attempt
        (w : ChatWorker) (bad : list str) (good : str)
        (rest : list (result worker_exn str)) :
  max_retries w = 10 ->
  length bad = 9 ->
  forallb rejected bad = true ->
  accepted good = true ->
  let run :=
    get_valid_response stub_chat w (MkStub (map Ret bad ++ Ret good :: rest) [])
  in
  fst run = Some (Ret good) /\
  length (calls (snd run)) = 10 /\
  script (snd run) = rest /\
  forall k, 2 <= k <= 10 ->
    exists prev cur,
      calls (snd run) !! (k - 2) = Some prev /\
      calls (snd run) !! (k - 1) = Some cur /\
      cur = prev ++ escalation w (k - 2) /\
      count_system cur = S (count_system prev).
Proof.
  intros Hmax Hlen Hbad Hgood. cbv zeta.
  assert (E : get_valid_response stub_chat w
                (MkStub (map Ret bad ++ Ret good :: rest) [])
              = (Some (Ret good),
                 MkStub rest (sent w 0 10 (initial_messages w)))).
  { unfold get_valid_response. rewrite Hmax.
    replace 10 with (length bad + 1) at 1 by lia.
    rewrite attempts_rejected by exact Hbad.
    cbn [attempts stub_chat script calls].
    rewrite (accepted_validate good Hgood).
    cbn [app]. rewrite Hlen, <- sent_snoc. reflexivity. }
  rewrite E. cbn [fst snd script calls].
  split; [reflexivity|].
  split; [apply sent_length|].
  split; [reflexivity|].
  intros k Hk.
  assert (Hi : k - 2 < length (sent w 0 10 (initial_messages w)))
    by (rewrite sent_length; lia).
  apply lookup_lt_is_Some_2 in Hi. destruct Hi as [prev Hprev].
  exists prev, (prev ++ escalation w (k - 2)).
  split; [exact Hprev|].
  split.
  - replace (k - 1) with (S (k - 2)) by lia.
    apply (sent_step w 10 0 _ (k - 2) prev); [lia|exact Hprev].
  - split; [reflexivity|apply count_system_escalation].
Qed.

Lemma retry_succeeds_on_tenth_attempt_witness :
  fst (get_valid_response stub_chat example_worker
         (MkStub (map Ret (repeat BAD_REPLY 9) ++ [Ret GOOD_REPLY]) []))
  = Some (Ret GOOD_REPLY) /\
  length (calls (snd (get_valid_response stub_chat example_worker
         (MkStub (map Ret (repeat BAD_REPLY 9) ++ [Ret GOOD_REPLY]) []))))
  = 10.
Proof.
  pose proof (retry_succeeds_on_tenth_attempt
                example_worker (repeat BAD_REPLY 9) GOOD_REPLY []
                ltac:(reflexivity) ltac:(reflexivity)
                ltac:(vm_compute; reflexivity)
                ltac:(vm_compute; reflexivity)) as H.
  cbv zeta in H. split; apply H.
Defined.

(** The same run against a server of any kind: if the server answers
    the ten requests of the escalation with nine rejected replies and an
    accepted one, the function returns the accepted reply and leaves the
    server in the state after exactly those ten calls. *)
Lemma attempts_serves {B : Type}
      (chat : str -> list Message -> B -> result worker_exn str * B)
      (w : ChatWorker) (good : str) :
  accepted good = true ->
  forall bad attempt msgs b b',
    forallb rejected bad = true ->
    serves chat (model w) (sent w attempt (S (length bad)) msgs)
           (map Ret bad ++ [Ret good]) b b' ->
    attempts chat w (S (length bad)) attempt msgs b = (Some (Ret good), b').
Proof.
  intros Hgood. induction bad as [|c bad IH]; intros attempt msgs b b' Hbad Hs.
  - cbn [length map app sent serves] in Hs. destruct Hs as (b1 & E & ->).
    cbn [length attempts]. rewrite E, (accepted_validate good Hgood).
    reflexivity.
  - simpl in Hbad. apply andb_prop in Hbad as [Hc Hbad].
    cbn [length map app] in Hs.
    change (sent w attempt (S (S (length bad))) msgs)
      with (msgs :: sent w (S attempt) (S (length bad))
                         (msgs ++ escalation w attempt)) in Hs.
    cbn [serves] in Hs. destruct Hs as (b1 & E & Hs).
    change (attempts chat w (S (length (c :: bad))) attempt msgs b)
      with (let (response, b1) := chat (model w) msgs b in
            let handler (e : worker_exn) :=
              if attempt =? max_retries w - 1
              then (Some (Raise (Exception (failed_after (max_retries w) e))), b1)
              else attempts chat w (S (length bad)) (S attempt) msgs b1 in
            match response with
            | Raise e => handler e
            | Ret content =>
                match validate_response content with
                | None => (None, b1)
                | Some (Raise e) => handler e
                | Some (Ret true) => (Some (Ret content), b1)
                | Some (Ret false) =>
                    attempts chat w (S (length bad)) (S attempt)
                             (msgs ++ escalation w attempt) b1
                end
            end).
    rewrite E, (rejected_validate c Hc). apply IH; assumption.
Qed.

Lemma get_valid_response_serves {B : Type}
      (chat : str -> list Message -> B -> result worker_exn str * B)
      (w : ChatWorker) (bad : list str) (good : str) (b b' : B) :
  max_retries w = 10 ->
  length bad = 9 ->
  forallb rejected bad = true ->
  accepted good = true ->
  serves chat (model w) (sent w 0 10 (initial_messages w))
         (map Ret bad ++ [Ret good]) b b' ->
  get_valid_response chat w b = (Some (Ret good), b').
Proof.
  intros Hmax Hlen Hbad Hgood Hs. unfold get_valid_response.
  rewrite Hmax. replace 10 with (S (length bad)) by lia.
  apply attempts_serves; [exact Hgood|exact Hbad|].
  rewrite Hlen. exact Hs.
Qed.

(** An attempt that raises before the last one is retried with the
    messages unchanged; a run of unsuccessful attempts, none of them the
    last, makes one call each. *)
Lemma attempts_unsuccessful w rest :
  forall scr todo attempt msgs cs,
    forallb unsuccessful scr = true ->
    attempt + length scr < max_retries w ->
    exists msgs' cs',
      attempts stub_chat w (length scr + todo) attempt msgs
               (MkStub (scr ++ rest) cs)
      = attempts stub_chat w todo (attempt + length scr) msgs'
                 (MkStub rest cs')
      /\ length cs' = length cs + length scr.
Proof.
  induction scr as [|r scr IH]; intros todo attempt msgs cs Hall Hlt.
  - exists msgs, cs. simpl. rewrite !Nat.add_0_r. split; reflexivity.
  - simpl in Hall. apply andb_prop in Hall as [Hr Hall]. simpl in Hlt.
    assert (Hnot_last : (attempt =? max_retries w - 1) = false)
      by (apply Nat.eqb_neq; lia).
    cbn [length app Nat.add attempts stub_chat script calls].
    rewrite Hnot_last.
    assert (Hnext : forall msgs1,
      exists msgs' cs',
        attempts stub_chat w (length scr + todo) (S attempt) msgs1
                 (MkStub (scr ++ rest) (cs ++ [msgs]))
        = attempts stub_chat w todo (attempt + S (length scr)) msgs'
                   (MkStub rest cs')
        /\ length cs' = length cs + S (length scr)).
    { intros msgs1.
      destruct (IH todo (S attempt) msgs1 (cs ++ [msgs]) Hall ltac:(lia))
        as (msgs' & cs' & E & L).
      exists msgs', cs'. rewrite E.
      replace (S attempt + length scr) with (attempt + S (length scr)) by lia.
      split; [reflexivity|]. rewrite L, length_app. simpl. lia. }
    destruct r as [c|e]; [|apply Hnext].
    unfold unsuccessful in Hr.
    destruct (validate_response c) as [[[|]|e]|]; try discriminate;
      apply Hnext.
Qed.

Lemma str_of_nat_digit n : exists d ds, str_of_nat n = d :: ds /\ is_digit d = true.
Proof.
  unfold str_of_nat.
  assert (Hn : Nat.to_uint n <> Nil).
  { rewrite <- (DecimalNat.Unsigned.of_to n) at 1.
    rewrite DecimalNat.Unsigned.to_of. apply unorm_nonnil. }
  destruct (Nat.to_uint n); [congruence| | | | | | | | | |];
    simpl; eauto.
Qed.

(** The fixed message holds no digit, so it names no budget. *)
Lemma FAILED_TAGS_names_nothing n : ~ names_budget FAILED_TAGS n.
Proof.
  unfold names_budget, contains. intros (a & b & E).
  destruct (str_of_nat_digit n) as (d & ds & Hs & Hd). rewrite Hs in E.
  assert (Hall : forallb (fun c => negb (is_digit c)) FAILED_TAGS = true)
    by (vm_compute; reflexivity).
  rewrite forallb_forall in Hall.
  specialize (Hall d). rewrite Hd in Hall.
  assert (Hin : In d FAILED_TAGS).
  { rewrite E. apply in_or_app. right. left. reflexivity. }
  specialize (Hall Hin). discriminate.
Qed.

(** C3 (amended).  When all [max_retries] attempts are unsuccessful and
    the last one raises nothing (its reply arrives and is rejected), the
    loop has called the server once per attempt and the function raises
    the fixed message [FAILED_TAGS], which does not name the budget. *)
Theorem exhausted_raises_fixed_message
        (w : ChatWorker) (scr rest : list (result worker_exn str)) :
  length scr = max_retries w ->
  forallb unsuccessful scr = true ->
  match last scr with
  | Some r => plainly_rejected r = true
  | None => True
  end ->
  let run := get_valid_response stub_chat w (MkStub (scr ++ rest) []) in
  fst run = Some (Raise (Exception FAILED_TAGS)) /\
  length (calls (snd run)) = max_retries w /\
  script (snd run) = rest /\
  ~ names_budget FAILED_TAGS (max_retries w).
Proof.
  intros Hlen Hall Hlast. cbv zeta.
  split; [|split; [|split; [|apply FAILED_TAGS_names_nothing]]];
    unfold get_valid_response; rewrite <- Hlen;
    destruct scr as [|r0 scr0] using rev_ind; try reflexivity;
    clear IHscr0;
    rewrite last_snoc in Hlast;
    rewrite forallb_app in Hall; apply andb_prop in Hall as [Hall _];
    rewrite length_app in Hlen; simpl in Hlen;
    rewrite <- app_assoc, length_app; cbn [length app];
    destruct (attempts_unsuccessful w (r0 :: rest) scr0 1 0
                (initial_messages w) [] Hall ltac:(lia))
      as (msgs' & cs' & -> & L);
    destruct r0 as [c|e]; try discriminate;
    cbn [plainly_rejected] in Hlast;
    cbn [attempts stub_chat script calls Nat.add];
    rewrite (rejected_validate c Hlast);
    cbn [attempts fst snd script calls];
    try reflexivity.
  rewrite length_app, L. simpl. lia.
Qed.

Lemma exhausted_raises_fixed_message_witness :
  fst (get_valid_response stub_chat example_worker
         (MkStub (repeat (Ret BAD_REPLY) 10 ++ []) []))
  = Some (Raise (Exception FAILED_TAGS)) /\
  ~ names_budget FAILED_TAGS (max_retries example_worker).
Proof.
  pose proof (exhausted_raises_fixed_message
                example_worker (repeat (Ret BAD_REPLY) 10) []
                ltac:(reflexivity)
                ltac:(vm_compute; reflexivity)
                ltac:(vm_compute; reflexivity)) as H.
  cbv zeta in H. split; apply H.
Defined.

(** C3, as stated, fails: ten rejected replies exhaust the budget of
    ten, and the message of the error raised does not contain [10]. *)
Lemma exhausted_message_omits_budget :
  max_retries example_worker = 10 /\
  exists msg,
    fst (get_valid_response stub_chat example_worker
           (MkStub (repeat (Ret BAD_REPLY) 10) []))
    = Some (Raise (Exception msg)) /\
    ~ names_budget msg 10.
Proof.
  split; [reflexivity|]. exists FAILED_TAGS.
  split; [vm_compute; reflexivity|].
  apply cut_None_iff. vm_compute. reflexivity.
Qed.

(** The budget is named by the other terminal error: when the last
    attempt raises, the message is [failed_after], which contains
    [str(max_retries)]. *)
Lemma last_attempt_raising_names_budget (w : ChatWorker) e :
  max_retries w = 1 ->
  fst (get_valid_response stub_chat w (MkStub [Raise e] []))
  = Some (Raise (Exception (failed_after (max_retries w) e))) /\
  names_budget (failed_after (max_retries w) e) (max_retries w).
Proof.
  intros H. split.
  - destruct w as [p h m md sp]. simpl in H. subst m. reflexivity.
  - unfold names_budget, failed_after. eexists. eexists. reflexivity.
Qed.

(** ** The chat store *)

(** Reduce the projections of managers and entries, and nothing else. *)
Ltac store_simpl :=
  unfold store_invariant, catalog_matches;
  cbn [fst snd chat_files metadata_file chats_metadata active_chat_id
       save_chats_metadata created_at updated_at title messages option_map].

Lemma create_invariant i t m :
  store_invariant m -> store_invariant (snd (create_new_chat i t m)).
Proof.
  intros ((Hfile & Hcat) & Hrec & Hact).
  unfold create_new_chat, save_chats_metadata, store_invariant,
    catalog_matches; store_simpl.
  split; [split; [reflexivity|]|split].
  - intros j e. destruct (decide (i = j)) as [->|Hne].
    + rewrite !lookup_insert_eq. intros [= <-]. eauto.
    + rewrite !lookup_insert_ne by exact Hne. apply Hcat.
  - intros j. destruct (decide (i = j)) as [->|Hne].
    + rewrite !lookup_insert_eq. eauto.
    + rewrite !lookup_insert_ne by exact Hne. apply Hrec.
  - intros a [= <-]. rewrite lookup_insert_eq. eauto.
Qed.

Lemma load_invariant i m :
  store_invariant m -> store_invariant (snd (load_chat i m)).
Proof.
  intros ((Hfile & Hcat) & Hrec & Hact). unfold load_chat.
  destruct (chat_files m !! i) as [msgs|] eqn:F; store_simpl.
  - split; [split; assumption|split; [assumption|]].
    intros a [= <-]. apply Hrec. rewrite F. eauto.
  - split; [split; assumption|split; assumption].
Qed.

Lemma rename_invariant i n t m :
  store_invariant m -> store_invariant (snd (update_chat_title i n t m)).
Proof.
  intros ((Hfile & Hcat) & Hrec & Hact). unfold update_chat_title.
  destruct (chats_metadata m !! i) as [e|] eqn:M; store_simpl.
  - split; [split; [reflexivity|]|split].
    + intros j e'. destruct (decide (i = j)) as [->|Hne].
      * rewrite lookup_insert_eq. intros [= <-]. store_simpl. apply Hcat, M.
      * rewrite lookup_insert_ne by exact Hne. apply Hcat.
    + intros j Hj. destruct (decide (i = j)) as [->|Hne].
      * rewrite lookup_insert_eq. eauto.
      * rewrite lookup_insert_ne by exact Hne. apply Hrec, Hj.
    + intros a Ha. destruct (decide (i = a)) as [->|Hne].
      * rewrite lookup_insert_eq. eauto.
      * rewrite lookup_insert_ne by exact Hne. apply Hact, Ha.
  - split; [split; assumption|split; assumption].
Qed.

Lemma delete_invariant i m :
  store_invariant m -> store_invariant (snd (delete_chat i m)).
Proof.
  intros ((Hfile & Hcat) & Hrec & Hact). unfold delete_chat.
  destruct (chats_metadata m !! i) as [e|] eqn:M; store_simpl;
    [|split; [split; assumption|split; assumption]].
  assert (Hcat' : forall j e',
    delete i (chats_metadata m) !! j = Some e' ->
    exists msgs, delete i (chat_files m) !! j = Some msgs
                 /\ messages e' = Some msgs).
  { intros j e'. destruct (decide (i = j)) as [->|Hne].
    - rewrite lookup_delete_eq. discriminate.
    - rewrite !lookup_delete_ne by exact Hne. apply Hcat. }
  assert (Hrec' : forall j,
    is_Some (delete i (chat_files m) !! j) ->
    is_Some (delete i (chats_metadata m) !! j)).
  { intros j. destruct (decide (i = j)) as [->|Hne].
    - rewrite lookup_delete_eq. intros [x Hx]. discriminate.
    - rewrite !lookup_delete_ne by exact Hne. apply Hrec. }
  destruct (decide (active_chat_id m = Some i)) as [Ha|Ha]; store_simpl.
  - split; [split; [reflexivity|assumption]|split; [assumption|]].
    discriminate.
  - split; [split; [reflexivity|assumption]|split; [assumption|]].
    intros a Hact'. rewrite lookup_delete_ne; [apply Hact, Hact'|].
    congruence.
Qed.

Lemma save_invariant r c t m :
  store_invariant m -> store_invariant (snd (save_message r c t m)).
Proof.
  intros Hinv. unfold save_message.
  destruct (active_chat_id m) as [[|a0 a]|] eqn:A; store_simpl;
    try exact Hinv.
  destruct Hinv as ((Hfile & Hcat) & Hrec & Hact).
  destruct (Hact _ A) as [e M]. rewrite M.
  destruct (Hcat _ _ M) as (msgs & F & Hm). store_simpl. rewrite F, Hm. store_simpl.
  set (i := a0 :: a) in *.
  split; [split; [reflexivity|]|split].
  - intros j e'. destruct (decide (i = j)) as [->|Hne].
    + rewrite !lookup_insert_eq. intros [= <-]. store_simpl. eauto.
    + rewrite !lookup_insert_ne by exact Hne. apply Hcat.
  - intros j Hj. destruct (decide (i = j)) as [->|Hne].
    + rewrite lookup_insert_eq. eauto.
    + rewrite lookup_insert_ne in Hj by exact Hne.
      rewrite lookup_insert_ne by exact Hne. apply Hrec, Hj.
  - intros b Hb. destruct (decide (i = b)) as [->|Hne].
    + rewrite lookup_insert_eq. eauto.
    + rewrite lookup_insert_ne by exact Hne. apply Hact.
      rewrite A. exact Hb.
Qed.

Lemma perform_invariant m c :
  store_invariant m -> store_invariant (perform m c).
Proof.
  destruct c; cbn [perform].
  - apply create_invariant.
  - apply save_invariant.
  - apply rename_invariant.
  - apply delete_invariant.
  - apply load_invariant.
Qed.

Lemma empty_invariant : store_invariant empty_manager.
Proof.
  unfold empty_manager. store_simpl.
  split; [split; [reflexivity|]|split].
  - intros j e. rewrite lookup_empty. discriminate.
  - intros j. rewrite lookup_empty. intros [x Hx]. discriminate.
  - discriminate.
Qed.

Lemma fresh_invariant i t : store_invariant (fresh i t).
Proof.
  unfold fresh, init. store_simpl.
  destruct (decide (∅ = ∅)) as [_|Hne]; [|congruence].
  apply (create_invariant i t empty_manager), empty_invariant.
Qed.

Lemma perform_all_invariant cs :
  forall m, store_invariant m -> store_invariant (perform_all m cs).
Proof.
  unfold perform_all. induction cs as [|c cs IH]; intros m Hm; [exact Hm|].
  cbn. apply IH, perform_invariant, Hm.
Qed.

(** On a manager reached from a fresh one, a call that raises has
    written nothing: no call fails half way. *)
Lemma raise_changes_nothing m c :
  store_invariant m ->
  match c with
  | Create i t => exists r, fst (create_new_chat i t m) = Ret r
  | Append r c t =>
      forall e, fst (save_message r c t m) = Raise e ->
                snd (save_message r c t m) = m
  | Rename i n t =>
      forall e, fst (update_chat_title i n t m) = Raise e ->
                snd (update_chat_title i n t m) = m
  | Delete i =>
      forall e, fst (delete_chat i m) = Raise e -> snd (delete_chat i m) = m
  | Load i =>
      forall e, fst (load_chat i m) = Raise e -> snd (load_chat i m) = m
  end.
Proof.
  intros Hinv. destruct c.
  - eexists. reflexivity.
  - intros e. unfold save_message.
    destruct (active_chat_id m) as [[|a0 a]|] eqn:A; store_simpl;
      try reflexivity.
    destruct Hinv as (_ & _ & Hact).
    destruct (Hact _ A) as [e' M]. rewrite M. store_simpl.
    discriminate.
  - intros e. unfold update_chat_title.
    destruct (chats_metadata m !! chat_id); store_simpl;
      [discriminate|reflexivity].
  - intros e. unfold delete_chat.
    destruct (chats_metadata m !! chat_id); store_simpl;
      [discriminate|reflexivity].
  - intros e. unfold load_chat.
    destruct (chat_files m !! chat_id); store_simpl;
      [discriminate|reflexivity].
Qed.

(** C6.  After any run of create, append, rename, delete and load calls
    on a manager started in an empty directory, every catalog entry
    carries exactly the message list of that chat's record file, and the
    metadata file on disk equals the catalog in memory. *)
Theorem catalog_matches_after_calls (chat_id timestamp : str) (cs : list call) :
  catalog_matches (perform_all (fresh chat_id timestamp) cs).
Proof.
  apply (perform_all_invariant cs (fresh chat_id timestamp)), fresh_invariant.
Qed.

(** C8.  On any manager, creating a chat (whose id, like every uuid, is
    not the empty string), appending the user message ["hi"] and loading
    the chat all succeed, and the load returns exactly one message, with
    role ["user"] and content ["hi"]. *)
Theorem create_append_load (m : ChatManager) (chat_id t0 t1 : str) :
  chat_id <> [] ->
  let m1 := snd (create_new_chat chat_id t0 m) in
  let m2 := snd (save_message USER (py "hi") t1 m1) in
  fst (create_new_chat chat_id t0 m) = Ret (chat_id, default_title m) /\
  fst (save_message USER (py "hi") t1 m1) = Ret tt /\
  fst (load_chat chat_id m2) = Ret [Stored (py "user") (py "hi") t1].
Proof.
  intros Hid. cbv zeta.
  split; [reflexivity|].
  unfold create_new_chat, save_message. store_simpl.
  destruct chat_id as [|c0 cs]; [congruence|].
  rewrite !lookup_insert_eq. store_simpl.
  split; [reflexivity|].
  unfold load_chat. store_simpl. rewrite lookup_insert_eq. reflexivity.
Qed.

Lemma create_append_load_witness :
  fst (load_chat (py "c1")
         (snd (save_message USER (py "hi") (py "t1")
                 (snd (create_new_chat (py "c1") (py "t0") empty_manager)))))
  = Ret [Stored (py "user") (py "hi") (py "t1")].
Proof.
  apply (create_append_load empty_manager (py "c1") (py "t0") (py "t1")).
  discriminate.
Defined.

(** C9.  Deleting an existing chat succeeds; it clears the active chat
    pointer when that chat was the active one and leaves the pointer as
    it was otherwise. *)
Theorem delete_active_pointer (m : ChatManager) (s : str) :
  is_Some (chats_metadata m !! s) ->
  fst (delete_chat s m) = Ret tt /\
  (active_chat_id m = Some s ->
   active_chat_id (snd (delete_chat s m)) = None) /\
  (active_chat_id m <> Some s ->
   active_chat_id (snd (delete_chat s m)) = active_chat_id m).
Proof.
  intros [e M]. unfold delete_chat. rewrite M. store_simpl.
  split; [reflexivity|].
  destruct (decide (active_chat_id m = Some s)) as [Ha|Ha]; store_simpl.
  - split; [reflexivity|contradiction].
  - split; [contradiction|reflexivity].
Qed.

Lemma delete_active_pointer_witness :
  active_chat_id
    (snd (delete_chat (py "c1")
            (snd (create_new_chat (py "c1") (py "t0") empty_manager))))
  = None.
Proof.
  apply (delete_active_pointer
           (snd (create_new_chat (py "c1") (py "t0") empty_manager))
           (py "c1")).
  - unfold create_new_chat. store_simpl. rewrite lookup_insert_eq. eauto.
  - reflexivity.
Defined.

Lemma create_size i t m :
  chats_metadata m !! i = None ->
  size (chats_metadata (snd (create_new_chat i t m)))
  = S (size (chats_metadata m)).
Proof.
  intros H. unfold create_new_chat. store_simpl.
  apply map_size_insert_None, H.
Qed.

(** C10.  [create_new_chat] titles the chat ["Chat N"] with [N] the
    number of catalog entries before the call plus one, whatever else
    the manager holds.  So titles repeat: after creating [a], creating
    [b], deleting [a] and creating [c], the chats [b] and [c] are both in
    the catalog and carry the same title. *)
Theorem default_titles_repeat :
  (forall m chat_id t,
     fst (create_new_chat chat_id t m)
     = Ret (chat_id, py "Chat " ++ str_of_nat (size (chats_metadata m) + 1))
     /\ title <$> chats_metadata (snd (create_new_chat chat_id t m)) !! chat_id
        = Some (py "Chat " ++ str_of_nat (size (chats_metadata m) + 1))) /\
  (forall m a b c ta tb tc,
     chats_metadata m !! a = None ->
     chats_metadata m !! b = None ->
     a <> b -> b <> c ->
     let m' := perform_all m (create_create_delete_create a b c ta tb tc) in
     exists eb ec,
       chats_metadata m' !! b = Some eb /\
       chats_metadata m' !! c = Some ec /\
       title eb = py "Chat " ++ str_of_nat (size (chats_metadata m) + 2) /\
       title ec = title eb).
Proof.
  split.
  - intros m chat_id t. split; [reflexivity|].
    unfold create_new_chat. store_simpl. rewrite lookup_insert_eq. reflexivity.
  - intros m a b c ta tb tc Ha Hb Hab Hbc. cbv zeta.
    unfold perform_all, create_create_delete_create.
    cbn [fold_left perform].
    set (m1 := snd (create_new_chat a ta m)).
    set (m2 := snd (create_new_chat b tb m1)).
    assert (S1 : size (chats_metadata m1) = S (size (chats_metadata m)))
      by (apply create_size, Ha).
    assert (Hb1 : chats_metadata m1 !! b = None).
    { unfold m1, create_new_chat. store_simpl.
      rewrite lookup_insert_ne by exact Hab. exact Hb. }
    assert (Ha2 : is_Some (chats_metadata m2 !! a)).
    { unfold m2, create_new_chat. store_simpl.
      rewrite lookup_insert_ne by congruence.
      unfold m1, create_new_chat. store_simpl.
      rewrite lookup_insert_eq. eauto. }
    assert (S2 : size (chats_metadata m2) = S (S (size (chats_metadata m))))
      by (unfold m2; rewrite create_size, S1; [reflexivity|exact Hb1]).
    assert (E2 : chats_metadata m2 !! b
                 = Some (Meta tb tb (default_title m1) (Some []))).
    { unfold m2, create_new_chat. store_simpl. apply lookup_insert_eq. }
    set (m3 := snd (delete_chat a m2)).
    assert (M3 : chats_metadata m3 = delete a (chats_metadata m2)).
    { unfold m3, delete_chat. destruct Ha2 as [x ->]. store_simpl.
      destruct (decide (active_chat_id m2 = Some a)); reflexivity. }
    assert (S3 : size (chats_metadata m3) = S (size (chats_metadata m))).
    { rewrite M3, (map_size_delete_Some a (chats_metadata m2) Ha2), S2.
      reflexivity. }
    exists (Meta tb tb (default_title m1) (Some [])),
           (Meta tc tc (default_title m3) (Some [])).
    unfold create_new_chat at 1 2. store_simpl.
    rewrite lookup_insert_ne by congruence.
    rewrite lookup_insert_eq, M3, lookup_delete_ne by congruence.
    split; [exact E2|]. split; [reflexivity|].
    store_simpl. unfold default_title. rewrite S1, S3.
    split; [|reflexivity].
    replace (S (size (chats_metadata m)) + 1)
      with (size (chats_metadata m) + 2) by lia.
    reflexivity.
Qed.

Lemma default_titles_repeat_witness :
  exists eb ec,
    chats_metadata
      (perform_all empty_manager
         (create_create_delete_create (py "a") (py "b") (py "c")
            (py "t1") (py "t2") (py "t3"))) !! py "b" = Some eb /\
    chats_metadata
      (perform_all empty_manager
         (create_create_delete_create (py "a") (py "b") (py "c")
            (py "t1") (py "t2") (py "t3"))) !! py "c" = Some ec /\
    title eb = py "Chat " ++ str_of_nat (size (chats_metadata empty_manager) + 2) /\
    title ec = title eb.
Proof.
  apply (proj2 default_titles_repeat empty_manager (py "a") (py "b") (py "c")).
  - apply lookup_empty.
  - apply lookup_empty.
  - discriminate.
  - discriminate.
Defined.

(** * Further properties of the code *)

(** ** Trimming *)

Lemma lstrip_shape s :
  lstrip s = [] \/ exists c s', lstrip s = c :: s' /\ is_space c = false.
Proof.
  induction s as [|c s IH]; [left; reflexivity|].
  simpl. destruct (is_space c) eqn:E; [exact IH|].
  right. exists c, s. split; [reflexivity|exact E].
Qed.

Lemma lstrip_app_nonspace x c y :
  is_space c = false -> lstrip (x ++ c :: y) = lstrip x ++ c :: y.
Proof.
  intros Hc. induction x as [|d x IH]; simpl.
  - rewrite Hc. reflexivity.
  - destruct (is_space d); [exact IH|reflexivity].
Qed.

Lemma rstrip_cons_nonspace c s :
  is_space c = false -> rstrip (c :: s) = c :: rstrip s.
Proof.
  intros Hc. unfold rstrip. cbn [rev].
  rewrite (lstrip_app_nonspace (rev s) c [] Hc), rev_app_distr. reflexivity.
Qed.

Lemma lstrip_idem s : lstrip (lstrip s) = lstrip s.
Proof.
  destruct (lstrip_shape s) as [->|(c & s' & -> & Hc)]; [reflexivity|].
  simpl. rewrite Hc. reflexivity.
Qed.

Lemma rstrip_idem s : rstrip (rstrip s) = rstrip s.
Proof. unfold rstrip. rewrite rev_involutive, lstrip_idem. reflexivity. Qed.

Lemma strip_split s : strip s = rstrip (lstrip s).
Proof. reflexivity. Qed.

Lemma lstrip_strip s : lstrip (strip s) = strip s.
Proof.
  rewrite strip_split.
  destruct (lstrip_shape s) as [->|(c & s' & -> & Hc)]; [reflexivity|].
  rewrite (rstrip_cons_nonspace c s' Hc). simpl. rewrite Hc. reflexivity.
Qed.

Lemma strip_idem s : strip (strip s) = strip s.
Proof.
  rewrite (strip_split (strip s)), lstrip_strip, strip_split, rstrip_idem.
  reflexivity.
Qed.

Lemma strip_shape s :
  strip s = [] \/ exists c s', strip s = c :: s' /\ is_space c = false.
Proof.
  rewrite <- lstrip_strip. apply lstrip_shape.
Qed.

Lemma strip_nil : strip [] = [].
Proof. reflexivity. Qed.

(** A space joined onto trimmed text is trimmed away again. *)
Lemma strip_join_nothing s : strip (strip s ++ py " " ++ []) = strip s.
Proof.
  destruct (strip_shape s) as [E|(c & s' & E & Hc)].
  - rewrite E. reflexivity.
  - rewrite (strip_split (_ ++ _)).
    assert (L : lstrip (strip s ++ py " " ++ []) = strip s ++ py " " ++ []).
    { rewrite E. simpl. rewrite Hc. reflexivity. }
    rewrite L. unfold rstrip. rewrite rev_app_distr. simpl.
    change (rev (lstrip (rev (strip s)))) with (rstrip (strip s)).
    rewrite strip_split, rstrip_idem. reflexivity.
Qed.

(** ** Markers in text without [<] *)

Lemma cut_markup_free sep' s :
  markup_free s = true -> cut (60%N :: sep') s = None.
Proof.
  induction s as [|c s IH]; intros H; [reflexivity|].
  simpl in H. apply andb_prop in H as [Hc Hs].
  apply negb_true_iff in Hc.
  cbn [cut strip_prefix]. rewrite N.eqb_sym, Hc, (IH Hs). reflexivity.
Qed.

Lemma cut_after_markup_free sep' a b :
  markup_free a = true ->
  cut (60%N :: sep') (a ++ (60%N :: sep') ++ b) = Some (a, b).
Proof.
  induction a as [|c a IH]; intros H.
  - cbn [app].
    assert (P : strip_prefix (60%N :: sep') (60%N :: sep' ++ b) = Some b)
      by (apply strip_prefix_Some; reflexivity).
    unfold cut. destruct sep'; cbn [strip_prefix] in *; rewrite P; reflexivity.
  - simpl in H. apply andb_prop in H as [Hc Ha].
    apply negb_true_iff in Hc.
    change ((c :: a) ++ (60%N :: sep') ++ b)
      with (c :: (a ++ (60%N :: sep') ++ b)).
    cbn [cut strip_prefix]. rewrite N.eqb_sym, Hc, (IH Ha). reflexivity.
Qed.

Lemma markup_free_app a b :
  markup_free (a ++ b) = markup_free a && markup_free b.
Proof. apply forallb_app. Qed.

Lemma plain_markup_free s : plain s = true -> markup_free s = true.
Proof.
  unfold plain, markup_free. rewrite !forallb_forall.
  intros H c Hc. specialize (H c Hc). apply andb_prop in H. tauto.
Qed.

Lemma cut_cons_None sep c s :
  strip_prefix sep (c :: s) = None -> cut sep s = None ->
  cut sep (c :: s) = None.
Proof. intros P C. cbn [cut]. rewrite P, C. reflexivity. Qed.

Lemma cut_OPEN_close r t :
  markup_free r = true -> markup_free t = true ->
  cut OPEN (r ++ CLOSE ++ t) = None.
Proof.
  intros Hr Ht. induction r as [|c r IH].
  - change ([] ++ CLOSE ++ t) with (60%N :: (py "/think>" ++ t)).
    apply cut_cons_None; [reflexivity|].
    apply (cut_markup_free (py "think>")).
    rewrite markup_free_app, Ht. reflexivity.
  - simpl in Hr. apply andb_prop in Hr as [Hc Hr].
    apply negb_true_iff in Hc.
    change OPEN with (60%N :: py "think>") in *.
    change ((c :: r) ++ CLOSE ++ t) with (c :: (r ++ CLOSE ++ t)).
    cbn [cut strip_prefix]. rewrite N.eqb_sym, Hc, (IH Hr). reflexivity.
Qed.

(** ** The splitter, further *)

(** X1.  Both components that [extract_content_and_thoughts] returns are
    trimmed: trimming them again changes nothing. *)
Theorem extract_results_trimmed (content : str) :
  strip (fst (extract_content_and_thoughts content))
  = fst (extract_content_and_thoughts content) /\
  strip (snd (extract_content_and_thoughts content))
  = snd (extract_content_and_thoughts content).
Proof.
  rewrite extract_cases_ok. unfold extract_cases.
  destruct (cut OPEN content) as [[a b]|].
  - destruct (cut CLOSE (before OPEN b)) as [[r t]|]; cbn [fst snd];
      split; apply strip_idem.
  - cbn [fst snd]. split; [apply strip_idem|reflexivity].
Qed.

(** X2.  A text without an opening marker is returned trimmed as the
    answer, with empty reasoning, also when it holds closing markers. *)
Theorem extract_without_opening_marker (content : str) :
  ~ contains OPEN content ->
  extract_content_and_thoughts content = (strip content, []).
Proof.
  intros H. apply cut_None_iff in H.
  rewrite extract_cases_ok. unfold extract_cases. rewrite H. reflexivity.
Qed.

Lemma extract_without_opening_marker_witness :
  extract_content_and_thoughts (py " done</think> ")
  = (strip (py " done</think> "), []).
Proof.
  apply extract_without_opening_marker.
  apply cut_None_iff. vm_compute. reflexivity.
Defined.

Lemma extract_one_block_aux (a r t : str) :
  markup_free a = true -> markup_free r = true -> markup_free t = true ->
  extract_content_and_thoughts (a ++ OPEN ++ r ++ CLOSE ++ t)
  = (strip (strip a ++ py " " ++ strip t), strip r) /\
  extract_content_and_thoughts (a ++ OPEN ++ r ++ CLOSE) = (strip a, strip r).
Proof.
  intros Ha Hr Ht.
  assert (G : forall t', markup_free t' = true ->
    extract_content_and_thoughts (a ++ OPEN ++ r ++ CLOSE ++ t')
    = (strip (strip a ++ py " " ++ strip t'), strip r)).
  { intros t' Ht'. rewrite extract_cases_ok. unfold extract_cases.
    change OPEN with (60%N :: py "think>") at 1 2.
    rewrite (cut_after_markup_free (py "think>") a _ Ha).
    unfold before at 1. rewrite (cut_OPEN_close r t' Hr Ht').
    change CLOSE with (60%N :: py "/think>") at 1 2.
    rewrite (cut_after_markup_free (py "/think>") r _ Hr).
    unfold before. change CLOSE with (60%N :: py "/think>").
    rewrite (cut_markup_free (py "/think>") t' Ht'). reflexivity. }
  split; [apply G, Ht|].
  specialize (G [] eq_refl). rewrite app_nil_r in G. rewrite G.
  rewrite strip_nil, strip_join_nothing. reflexivity.
Qed.

(** X3.  For a reply of the shape answer, one reasoning block, trailing
    text (none of the three holding a [<]), the reasoning returned is the
    trimmed block and the answer is the trimmed answer joined by one
    space with the trimmed trailing text; without trailing text the
    answer is just the trimmed answer. *)
Theorem extract_one_block (a r t : str) :
  markup_free a = true -> markup_free r = true -> markup_free t = true ->
  extract_content_and_thoughts (a ++ OPEN ++ r ++ CLOSE ++ t)
  = (strip (strip a ++ py " " ++ strip t), strip r) /\
  extract_content_and_thoughts (a ++ OPEN ++ r ++ CLOSE) = (strip a, strip r).
Proof.
  intros. apply extract_one_block_aux; assumption.
Qed.

Lemma extract_one_block_witness :
  extract_content_and_thoughts
    (py " The answer. " ++ OPEN ++ py " because " ++ CLOSE)
  = (strip (py " The answer. "), strip (py " because ")).
Proof.
  apply (extract_one_block (py " The answer. ") (py " because ") []);
    reflexivity.
Defined.

(** ** The parser on replies with one reasoning block *)

Lemma lex_text t :
  forall acc s, plain t = true -> lex false acc (t ++ s) = lex false (acc ++ t) s.
Proof.
  induction t as [|c t IH]; intros acc s H.
  - rewrite app_nil_r. reflexivity.
  - simpl in H. apply andb_prop in H as [Hc Ht]. apply andb_prop in Hc as [_ Hc].
    apply negb_true_iff in Hc.
    cbn [app lex]. rewrite Hc, IH by exact Ht.
    rewrite <- app_assoc. reflexivity.
Qed.

Lemma lex_in_tag x :
  forall acc s,
    forallb (fun c => negb (c =? 62)%N) x = true ->
    lex true acc (x ++ 62%N :: s)
    = match classify (acc ++ x) with
      | Some tok => option_map (cons tok) (lex false [] s)
      | None => None
      end.
Proof.
  induction x as [|c x IH]; intros acc s H.
  - rewrite app_nil_r. reflexivity.
  - simpl in H. apply andb_prop in H as [Hc Hx]. apply negb_true_iff in Hc.
    cbn [app lex]. rewrite Hc, IH by exact Hx.
    rewrite <- app_assoc. reflexivity.
Qed.

Lemma lex_tag inner tok acc s :
  forallb (fun c => negb (c =? 62)%N) inner = true ->
  classify inner = Some tok ->
  lex false acc (60%N :: inner ++ 62%N :: s)
  = option_map (fun ts => text_token acc ++ tok :: ts) (lex false [] s).
Proof.
  intros H C. cbn [lex N.eqb Pos.eqb].
  rewrite (lex_in_tag inner [] s H). cbn [app]. rewrite C.
  destruct (lex false [] s); reflexivity.
Qed.

Lemma plain_fragment s : plain s = true -> forallb fragment_char s = true.
Proof.
  unfold plain. rewrite !forallb_forall.
  intros H c Hc. specialize (H c Hc). apply andb_prop in H. tauto.
Qed.

Lemma text_token_data s :
  text_token s = match data s with Some x => [TText x] | None => [] end.
Proof. destruct s; reflexivity. Qed.

Lemma wrap_one_block a r t :
  wrap (a ++ OPEN ++ r ++ CLOSE ++ t)
  = 60%N :: py "root" ++ 62%N ::
      (a ++ 60%N :: py "think" ++ 62%N ::
         (r ++ 60%N :: py "/think" ++ 62%N ::
            (t ++ 60%N :: py "/root" ++ 62%N :: []))).
Proof. unfold wrap. rewrite <- !app_assoc. reflexivity. Qed.

Lemma lex_one_block a r t :
  plain a = true -> plain r = true -> plain t = true ->
  lex false [] (wrap (a ++ OPEN ++ r ++ CLOSE ++ t))
  = Some (TStart ROOT :: text_token a ++ TStart THINK :: text_token r
            ++ TEnd THINK :: text_token t ++ [TEnd ROOT]).
Proof.
  intros Ha Hr Ht. rewrite wrap_one_block.
  rewrite (lex_tag (py "root") (TStart ROOT)) by reflexivity.
  rewrite (lex_text a [] _ Ha). cbn [app].
  rewrite (lex_tag (py "think") (TStart THINK)) by reflexivity.
  rewrite (lex_text r [] _ Hr). cbn [app].
  rewrite (lex_tag (py "/think") (TEnd THINK)) by reflexivity.
  rewrite (lex_text t [] _ Ht). cbn [app].
  rewrite (lex_tag (py "/root") (TEnd ROOT)) by reflexivity.
  cbn [lex option_map]. reflexivity.
Qed.

Lemma fragment_one_block a r t :
  plain a = true -> plain r = true -> plain t = true ->
  forallb fragment_char (wrap (a ++ OPEN ++ r ++ CLOSE ++ t)) = true.
Proof.
  intros Ha Hr Ht. unfold wrap.
  rewrite !forallb_app.
  rewrite (plain_fragment a Ha), (plain_fragment r Hr), (plain_fragment t Ht).
  reflexivity.
Qed.

(** A reply of that shape parses to the tree with the reasoning block
    as the only child of the root. *)
Lemma fromstring_one_block a r t :
  plain a = true -> plain r = true -> plain t = true ->
  fromstring (wrap (a ++ OPEN ++ r ++ CLOSE ++ t)) = Parsed (one_block_tree a r t).
Proof.
  intros Ha Hr Ht. unfold fromstring.
  rewrite (fragment_one_block a r t Ha Hr Ht), (lex_one_block a r t Ha Hr Ht).
  rewrite !text_token_data. unfold one_block_tree.
  destruct (data a), (data r), (data t); vm_compute; reflexivity.
Qed.

Lemma too_short_data r :
  negb (too_short (data r)) = (10 <=? length (strip r)).
Proof.
  destruct r as [|c r]; [reflexivity|].
  cbn [data too_short].
  destruct (Z.ltb_spec (Z.of_nat (length (strip (c :: r)))) 10);
    destruct (Nat.leb_spec 10 (length (strip (c :: r)))); try reflexivity; lia.
Qed.

Lemma validate_one_block_tree ta tr tt :
  validate_tree (Elem ROOT ta [Elem THINK tr [] tt] None)
  = Ret (negb (too_short tr)).
Proof.
  unfold validate_tree.
  assert (F : findall_descendants THINK (Elem ROOT ta [Elem THINK tr [] tt] None)
              = [([0], Elem THINK tr [] tt)]) by (vm_compute; reflexivity).
  assert (P : find_with_child THINK (Elem ROOT ta [Elem THINK tr [] tt] None)
              = None) by (vm_compute; reflexivity).
  assert (I : filter (fun n => has_tag THINK n = true)
                     (iter (Elem ROOT ta [Elem THINK tr [] tt] None))
              = [([0], Elem THINK tr [] tt)]) by (vm_compute; reflexivity).
  rewrite F, P, I. cbn [last snd text].
  destruct (too_short tr); reflexivity.
Qed.

Lemma validate_one_block_aux (a r t : str) :
  plain a = true -> plain r = true -> plain t = true ->
  validate_response (a ++ OPEN ++ r ++ CLOSE ++ t)
  = Some (Ret (10 <=? length (strip r))).
Proof.
  intros Ha Hr Ht. unfold validate_response.
  rewrite (fromstring_one_block a r t Ha Hr Ht).
  unfold one_block_tree. rewrite validate_one_block_tree, too_short_data.
  destruct a; reflexivity.
Qed.

(** X4.  For a reply made of an answer, one reasoning block and trailing
    text (plain character data, each possibly empty), the validator's
    verdict is whether the trimmed reasoning has at least 10 characters:
    neither the answer nor the text after the block plays a part. *)
Theorem validate_one_block (a r t : str) :
  plain a = true -> plain r = true -> plain t = true ->
  validate_response (a ++ OPEN ++ r ++ CLOSE ++ t)
  = Some (Ret (10 <=? length (strip r))).
Proof.
  intros. apply validate_one_block_aux; assumption.
Qed.

Lemma validate_one_block_witness :
  validate_response (py "" ++ OPEN ++ py "   123456789   " ++ CLOSE ++ py " bye")
  = Some (Ret (10 <=? length (strip (py "   123456789   ")))).
Proof.
  apply (validate_one_block (py "") (py "   123456789   ") (py " bye"));
    reflexivity.
Defined.

Lemma wrap_plain a :
  wrap a = 60%N :: py "root" ++ 62%N :: (a ++ 60%N :: py "/root" ++ 62%N :: []).
Proof. reflexivity. Qed.

Lemma wrap_unclosed a r :
  wrap (a ++ OPEN ++ r)
  = 60%N :: py "root" ++ 62%N ::
      (a ++ 60%N :: py "think" ++ 62%N ::
         (r ++ 60%N :: py "/root" ++ 62%N :: [])).
Proof. unfold wrap. rewrite <- !app_assoc. reflexivity. Qed.

Lemma wrap_unopened a t :
  wrap (a ++ CLOSE ++ t)
  = 60%N :: py "root" ++ 62%N ::
      (a ++ 60%N :: py "/think" ++ 62%N ::
         (t ++ 60%N :: py "/root" ++ 62%N :: [])).
Proof. unfold wrap. rewrite <- !app_assoc. reflexivity. Qed.

(** X5.  Replies without a complete reasoning block are rejected, never
    an error: plain text with no markup at all; an opening marker that
    is never closed; a closing marker that was never opened (the last
    two do not parse). *)
Theorem validate_rejects_incomplete (a r : str) :
  plain a = true -> plain r = true ->
  validate_response a = Some (Ret false) /\
  validate_response (a ++ OPEN ++ r) = Some (Ret false) /\
  validate_response (a ++ CLOSE ++ r) = Some (Ret false).
Proof.
  intros Ha Hr.
  pose proof (plain_fragment a Ha) as Fa.
  pose proof (plain_fragment r Hr) as Fr.
  split; [|split].
  - destruct a as [|c a]; [reflexivity|].
    unfold validate_response, fromstring.
    assert (F : forallb fragment_char (wrap (c :: a)) = true).
    { unfold wrap. rewrite !forallb_app, Fa. reflexivity. }
    rewrite F, wrap_plain.
    rewrite (lex_tag (py "root") (TStart ROOT)) by reflexivity.
    rewrite (lex_text (c :: a) [] _ Ha). cbn [app].
    rewrite (lex_tag (py "/root") (TEnd ROOT)) by reflexivity.
    vm_compute. reflexivity.
  - assert (E : fromstring (wrap (a ++ OPEN ++ r)) = ParseError).
    { unfold fromstring.
      assert (F : forallb fragment_char (wrap (a ++ OPEN ++ r)) = true).
      { unfold wrap. rewrite !forallb_app, Fa, Fr. reflexivity. }
      rewrite F, wrap_unclosed.
      rewrite (lex_tag (py "root") (TStart ROOT)) by reflexivity.
      rewrite (lex_text a [] _ Ha). cbn [app].
      rewrite (lex_tag (py "think") (TStart THINK)) by reflexivity.
      rewrite (lex_text r [] _ Hr). cbn [app].
      rewrite (lex_tag (py "/root") (TEnd ROOT)) by reflexivity.
      cbn [lex option_map]. rewrite !text_token_data.
      destruct (data a), (data r); vm_compute; reflexivity. }
    unfold validate_response. rewrite E. destruct a; reflexivity.
  - assert (E : fromstring (wrap (a ++ CLOSE ++ r)) = ParseError).
    { unfold fromstring.
      assert (F : forallb fragment_char (wrap (a ++ CLOSE ++ r)) = true).
      { unfold wrap. rewrite !forallb_app, Fa, Fr. reflexivity. }
      rewrite F, wrap_unopened.
      rewrite (lex_tag (py "root") (TStart ROOT)) by reflexivity.
      rewrite (lex_text a [] _ Ha). cbn [app].
      rewrite (lex_tag (py "/think") (TEnd THINK)) by reflexivity.
      rewrite (lex_text r [] _ Hr). cbn [app].
      rewrite (lex_tag (py "/root") (TEnd ROOT)) by reflexivity.
      cbn [lex option_map]. rewrite !text_token_data.
      destruct (data a), (data r); vm_compute; reflexivity. }
    unfold validate_response. rewrite E. destruct a; reflexivity.
Qed.

Lemma validate_rejects_incomplete_witness :
  validate_response (py "The answer is 4.") = Some (Ret false) /\
  validate_response (py "The answer is 4." ++ OPEN ++ py "two plus two is four")
  = Some (Ret false) /\
  validate_response (py "The answer is 4." ++ CLOSE ++ py "two plus two is four")
  = Some (Ret false).
Proof.
  apply (validate_rejects_incomplete
           (py "The answer is 4.") (py "two plus two is four"));
    reflexivity.
Defined.

(** X6.  Whatever the validator accepts is a non-empty text that parses
    and whose last reasoning block, in document order, has text of at
    least 10 characters once trimmed. *)
Theorem validate_accepts_only_long_last_block (content : str) :
  validate_response content = Some (Ret true) ->
  content <> [] /\
  exists tree n s,
    fromstring (wrap content) = Parsed tree /\
    last_think tree = Some n /\
    text (snd n) = Some s /\
    10 <= length (strip s).
Proof.
  unfold validate_response.
  destruct content as [|c0 cs]; [discriminate|].
  destruct (fromstring (wrap (c0 :: cs))) as [tree| |]; try discriminate.
  intros [= H]. split; [discriminate|].
  unfold validate_tree in H. unfold last_think.
  destruct (last (findall_descendants THINK tree)) as [n|] eqn:L;
    [|discriminate].
  destruct (too_short (text (snd n))) eqn:T; [discriminate|].
  exists tree, n.
  destruct (text (snd n)) as [[|c s]|]; try discriminate.
  exists (c :: s).
  split; [reflexivity|]. split; [exact L|]. split; [reflexivity|].
  cbn [too_short] in T. apply Z.ltb_ge in T. lia.
Qed.

Lemma validate_accepts_only_long_last_block_witness :
  GOOD_REPLY <> [] /\
  exists tree n s,
    fromstring (wrap GOOD_REPLY) = Parsed tree /\
    last_think tree = Some n /\
    text (snd n) = Some s /\
    10 <= length (strip s).
Proof.
  apply validate_accepts_only_long_last_block. vm_compute. reflexivity.
Defined.

(** ** The retry loop, further *)

(** One iteration: the loop stops after the call, or goes on with the
    same messages (an exception before the last attempt), or goes on
    with one escalation appended (a rejected reply). *)
Lemma attempts_step {B : Type}
      (chat : str -> list Message -> B -> result worker_exn str * B)
      (w : ChatWorker) (todo attempt : nat) (msgs : list Message) (b : B) :
  let b1 := snd (chat (model w) msgs b) in
  (exists r,
     attempts chat w (S todo) attempt msgs b = (r, b1) /\
     (r = None \/
      (exists c, r = Some (Ret c) /\ accepted c = true) \/
      (exists e, r = Some (Raise (Exception (failed_after (max_retries w) e))))))
  \/ attempts chat w (S todo) attempt msgs b
     = attempts chat w todo (S attempt) msgs b1
  \/ attempts chat w (S todo) attempt msgs b
     = attempts chat w todo (S attempt) (msgs ++ escalation w attempt) b1.
Proof.
  cbv zeta. cbn [attempts].
  destruct (chat (model w) msgs b) as [response b1]. cbn [snd].
  assert (Hh : forall e,
    (exists r,
       (if attempt =? max_retries w - 1
        then (Some (Raise (Exception (failed_after (max_retries w) e))), b1)
        else attempts chat w todo (S attempt) msgs b1) = (r, b1) /\
       (r = None \/
        (exists c, r = Some (Ret c) /\ accepted c = true) \/
        (exists e, r = Some (Raise (Exception (failed_after (max_retries w) e))))))
    \/ (if attempt =? max_retries w - 1
        then (Some (Raise (Exception (failed_after (max_retries w) e))), b1)
        else attempts chat w todo (S attempt) msgs b1)
       = attempts chat w todo (S attempt) msgs b1
    \/ (if attempt =? max_retries w - 1
        then (Some (Raise (Exception (failed_after (max_retries w) e))), b1)
        else attempts chat w todo (S attempt) msgs b1)
       = attempts chat w todo (S attempt) (msgs ++ escalation w attempt) b1).
  { intros e. destruct (attempt =? max_retries w - 1).
    - left. eexists. split; [reflexivity|]. right. right. eauto.
    - right. left. reflexivity. }
  destruct response as [c|e]; [|apply Hh].
  destruct (validate_response c) as [[[|]|e]|] eqn:V.
  - left. eexists. split; [reflexivity|]. right. left.
    exists c. split; [reflexivity|]. unfold accepted. rewrite V. reflexivity.
  - right. right. reflexivity.
  - apply Hh.
  - left. eexists. split; [reflexivity|]. left. reflexivity.
Qed.

Lemma attempts_outcomes {B : Type}
      (chat : str -> list Message -> B -> result worker_exn str * B)
      (w : ChatWorker) :
  forall todo attempt msgs b,
    fst (attempts chat w todo attempt msgs b) = None \/
    (exists c, fst (attempts chat w todo attempt msgs b) = Some (Ret c)
               /\ accepted c = true) \/
    fst (attempts chat w todo attempt msgs b)
    = Some (Raise (Exception FAILED_TAGS)) \/
    (exists e, fst (attempts chat w todo attempt msgs b)
               = Some (Raise (Exception (failed_after (max_retries w) e)))).
Proof.
  induction todo as [|todo IH]; intros attempt msgs b.
  - right. right. left. reflexivity.
  - destruct (attempts_step chat w todo attempt msgs b)
      as [(r & -> & [->|[(c & -> & Hc)|(e & ->)]])|[->| ->]]; cbn [fst].
    + left. reflexivity.
    + right. left. eauto.
    + right. right. right. eauto.
    + apply IH.
    + apply IH.
Qed.

(** X7.  Against a model server of any kind, [get_valid_response] ends
    in one of three ways: it returns a reply, and then the validator
    accepted that reply; or it raises the fixed message of the exhausted
    loop; or it raises the message of an exception on the last attempt,
    which carries [max_retries] and the text of that exception. *)
Theorem get_valid_response_outcomes {B : Type}
        (chat : str -> list Message -> B -> result worker_exn str * B)
        (w : ChatWorker) (b : B) :
  (forall c, fst (get_valid_response chat w b) = Some (Ret c) ->
             validate_response c = Some (Ret true)) /\
  (forall x, fst (get_valid_response chat w b) = Some (Raise x) ->
             x = Exception FAILED_TAGS \/
             exists e,
               x = Exception
                     (py "Failed to get valid response after "
                      ++ str_of_nat (max_retries w) ++ py " attempts: "
                      ++ str_exn e)).
Proof.
  unfold get_valid_response.
  pose proof (attempts_outcomes chat w (max_retries w) 0 (initial_messages w) b)
    as [H|[(c & H & Hc)|[H|(e & H)]]]; rewrite H; split;
    try discriminate.
  - intros c' [= <-]. apply accepted_validate, Hc.
  - intros x [= <-]. left. reflexivity.
  - intros x [= <-]. right. exists e. reflexivity.
Qed.

Lemma get_valid_response_outcomes_witness :
  validate_response GOOD_REPLY = Some (Ret true).
Proof.
  apply (proj1 (get_valid_response_outcomes stub_chat example_worker
                  (MkStub [Ret BAD_REPLY; Ret GOOD_REPLY] []))).
  vm_compute. reflexivity.
Defined.

Lemma stub_chat_logs md msgs b :
  calls (snd (stub_chat md msgs b)) = calls b ++ [msgs].
Proof. unfold stub_chat. destruct (script b); reflexivity. Qed.

(** What a run of the loop adds to the log of the scripted server. *)
Lemma attempts_calls w :
  forall todo attempt msgs b,
    exists news,
      calls (snd (attempts stub_chat w todo attempt msgs b)) = calls b ++ news
      /\ length news <= todo
      /\ ((todo = 0 /\ news = []) \/ exists rest, news = msgs :: rest)
      /\ growing news.
Proof.
  induction todo as [|todo IH]; intros attempt msgs b.
  - exists []. cbn [attempts snd]. rewrite app_nil_r.
    split; [reflexivity|]. split; [reflexivity|].
    split; [left; split; reflexivity|exact I].
  - assert (Hgo : forall msgs1,
      msgs `prefix_of` msgs1 ->
      exists news,
        calls (snd (attempts stub_chat w todo (S attempt) msgs1
                      (snd (stub_chat (model w) msgs b))))
        = calls b ++ news
        /\ length news <= S todo
        /\ ((S todo = 0 /\ news = []) \/ exists rest, news = msgs :: rest)
        /\ growing news).
    { intros msgs1 Hp.
      destruct (IH (S attempt) msgs1 (snd (stub_chat (model w) msgs b)))
        as (news1 & E & L & Hd & G).
      exists (msgs :: news1). rewrite E, stub_chat_logs, <- app_assoc.
      split; [reflexivity|]. split; [simpl; lia|].
      split; [right; eauto|].
      destruct Hd as [[_ ->]|(rest & ->)]; [exact I|].
      split; [exact Hp|exact G]. }
    destruct (attempts_step stub_chat w todo attempt msgs b)
      as [(r & -> & _)|[->| ->]].
    + exists [msgs]. cbn [snd]. rewrite stub_chat_logs.
      split; [reflexivity|]. split; [simpl; lia|].
      split; [right; eauto|exact I].
    + apply Hgo. reflexivity.
    + apply Hgo. exists (escalation w attempt). reflexivity.
Qed.



(** X9.  After any number of unsuccessful attempts below the budget
    (calls that raise, replies that are rejected or on which the
    validator raises), the first accepted reply is returned at once: the
    server has been called once per attempt so far and the replies after
    it are never requested. *)
Theorem first_accepted_reply_returned
        (w : ChatWorker) (scr rest : list (result worker_exn str))
        (good : str) :
  length scr < max_retries w ->
  forallb unsuccessful scr = true ->
  accepted good = true ->
  fst (get_valid_response stub_chat w (MkStub (scr ++ Ret good :: rest) []))
  = Some (Ret good) /\
  length (calls (snd (get_valid_response stub_chat w
                        (MkStub (scr ++ Ret good :: rest) []))))
  = S (length scr) /\
  script (snd (get_valid_response stub_chat w
                 (MkStub (scr ++ Ret good :: rest) [])))
  = rest.
Proof.
  intros Hlt Hall Hgood. unfold get_valid_response.
  assert (E : exists cs,
    attempts stub_chat w (max_retries w) 0 (initial_messages w)
             (MkStub (scr ++ Ret good :: rest) [])
    = (Some (Ret good), MkStub rest cs) /\ length cs = S (length scr)).
  { remember (max_retries w - S (length scr)) as k eqn:Hk.
    replace (max_retries w) with (length scr + S k) by lia.
    destruct (attempts_unsuccessful w (Ret good :: rest) scr (S k) 0
                (initial_messages w) [] Hall ltac:(lia))
      as (msgs' & cs' & -> & L).
    cbn [attempts stub_chat script calls].
    rewrite (accepted_validate good Hgood).
    eexists. split; [reflexivity|].
    rewrite length_app, L. simpl. lia. }
  destruct E as (cs & -> & L). cbn [fst snd script calls].
  split; [reflexivity|]. split; [exact L|reflexivity].
Qed.

Lemma first_accepted_reply_returned_witness :
  fst (get_valid_response stub_chat example_worker
         (MkStub ([Raise (BackendError (py "connection refused"));
                   Ret BAD_REPLY] ++ Ret GOOD_REPLY :: [Ret BAD_REPLY]) []))
  = Some (Ret GOOD_REPLY).
Proof.
  apply (first_accepted_reply_returned example_worker
           [Raise (BackendError (py "connection refused")); Ret BAD_REPLY]
           [Ret BAD_REPLY] GOOD_REPLY).
  - simpl. lia.
  - vm_compute. reflexivity.
  - vm_compute. reflexivity.
Defined.

(** X10.  When every attempt before the last is unsuccessful and the
    last attempt ends with an exception (the call raises, or the
    validator raises on the reply), the function raises
    ["Failed to get valid response after N attempts: " + str(e)] with
    [N = max_retries]; this message names the budget. *)
Theorem last_attempt_exception_reported
        (w : ChatWorker) (scr rest : list (result worker_exn str))
        (r : result worker_exn str) (e : worker_exn) :
  S (length scr) = max_retries w ->
  forallb unsuccessful scr = true ->
  attempt_exn r = Some e ->
  fst (get_valid_response stub_chat w (MkStub (scr ++ r :: rest) []))
  = Some (Raise (Exception (failed_after (max_retries w) e))) /\
  names_budget (failed_after (max_retries w) e) (max_retries w) /\
  length (calls (snd (get_valid_response stub_chat w
                        (MkStub (scr ++ r :: rest) []))))
  = max_retries w.
Proof.
  intros Hlen Hall He. unfold get_valid_response.
  assert (E : attempts stub_chat w (max_retries w) 0 (initial_messages w)
                       (MkStub (scr ++ r :: rest) [])
              = (Some (Raise (Exception (failed_after (max_retries w) e))),
                 snd (attempts stub_chat w (max_retries w) 0
                        (initial_messages w) (MkStub (scr ++ r :: rest) [])))
              /\ length (calls (snd (attempts stub_chat w (max_retries w) 0
                        (initial_messages w) (MkStub (scr ++ r :: rest) []))))
                 = max_retries w).
  { assert (A : forall n, n = max_retries w ->
      attempts stub_chat w n 0 (initial_messages w)
               (MkStub (scr ++ r :: rest) [])
      = (Some (Raise (Exception (failed_after (max_retries w) e))),
         snd (attempts stub_chat w n 0
                (initial_messages w) (MkStub (scr ++ r :: rest) [])))
      /\ length (calls (snd (attempts stub_chat w n 0
                (initial_messages w) (MkStub (scr ++ r :: rest) []))))
         = n).
    { intros n Hn. replace n with (length scr + 1) by lia.
      destruct (attempts_unsuccessful w (r :: rest) scr 1 0
                  (initial_messages w) [] Hall ltac:(lia))
        as (msgs' & cs' & -> & L).
      assert (Hlast : (0 + length scr =? max_retries w - 1) = true)
        by (apply Nat.eqb_eq; lia).
      cbn [attempts stub_chat script calls]. rewrite Hlast.
      unfold attempt_exn in He.
      destruct r as [c|e'].
      - destruct (validate_response c) as [[[|]|e']|]; try discriminate.
        injection He as ->. cbn [snd calls].
        split; [reflexivity|]. rewrite length_app, L. simpl. lia.
      - injection He as ->. cbn [snd calls].
        split; [reflexivity|]. rewrite length_app, L. simpl. lia. }
    apply A. reflexivity. }
  destruct E as [E1 E2]. rewrite E1 at 1. cbn [fst].
  split; [reflexivity|]. split; [|exact E2].
  unfold names_budget, failed_after. eexists. eexists. reflexivity.
Qed.

Lemma last_attempt_exception_reported_witness :
  fst (get_valid_response stub_chat example_worker
         (MkStub (repeat (Ret BAD_REPLY) 9
                  ++ Raise (BackendError (py "connection refused")) :: []) []))
  = Some (Raise (Exception
                   (failed_after (max_retries example_worker)
                                 (BackendError (py "connection refused"))))).
Proof.
  apply (last_attempt_exception_reported example_worker
           (repeat (Ret BAD_REPLY) 9) []
           (Raise (BackendError (py "connection refused")))
           (BackendError (py "connection refused"))).
  - reflexivity.
  - vm_compute. reflexivity.
  - reflexivity.
Defined.

(** X11.  An attempt that ends with an exception before the last one is
    retried with the very same messages: no escalation is appended, and
    the second request equals the first. *)
Theorem exception_retried_with_same_messages
        (w : ChatWorker) (r0 : result worker_exn str) (e : worker_exn)
        (rest : list (result worker_exn str)) :
  2 <= max_retries w ->
  attempt_exn r0 = Some e ->
  calls (snd (get_valid_response stub_chat w (MkStub (r0 :: rest) []))) !! 0
  = Some (initial_messages w) /\
  calls (snd (get_valid_response stub_chat w (MkStub (r0 :: rest) []))) !! 1
  = Some (initial_messages w).
Proof.
  intros Hmax He. unfold get_valid_response.
  destruct (max_retries w) as [|[|k]] eqn:M; try lia.
  assert (E : attempts stub_chat w (S (S k)) 0 (initial_messages w)
                       (MkStub (r0 :: rest) [])
              = attempts stub_chat w (S k) 1 (initial_messages w)
                         (MkStub rest [initial_messages w])).
  { cbn [attempts stub_chat script calls app]. rewrite M.
    cbn [Nat.sub Nat.eqb]. unfold attempt_exn in He.
    destruct r0 as [c|e']; [|reflexivity].
    destruct (validate_response c) as [[[|]|e']|]; try discriminate.
    reflexivity. }
  rewrite E.
  destruct (attempts_calls w (S k) 1 (initial_messages w)
                           (MkStub rest [initial_messages w]))
    as (news & -> & _ & Hd & _).
  destruct Hd as [[H0 _]|(rest' & ->)]; [discriminate|].
  split; reflexivity.
Qed.

Lemma exception_retried_with_same_messages_witness :
  calls (snd (get_valid_response stub_chat example_worker
                (MkStub (Raise (BackendError (py "timeout")) :: [Ret GOOD_REPLY])
                        []))) !! 1
  = Some (initial_messages example_worker).
Proof.
  apply (exception_retried_with_same_messages example_worker
           (Raise (BackendError (py "timeout")))
           (BackendError (py "timeout")) [Ret GOOD_REPLY]).
  - simpl. lia.
  - reflexivity.
Defined.

(** ** Escalation prompts and the initial messages *)

(** X12.  [enhance_prompt] never indexes outside its list of five
    prompts: the index [min(failed_attempts, 4)] is always in range, and
    from the fifth failed attempt on the prompt is always the last one,
    the one starting with MANDATORY. *)
Theorem enhance_prompt_clamped :
  (forall n,
     nth_error enhanced_prompts (Nat.min n (length enhanced_prompts - 1))
     = Some (enhance_prompt n)) /\
  (forall n, 4 <= n ->
     enhance_prompt n
     = py "MANDATORY: Include substantial thoughts (>10 words) in <think></think> tags at the end") /\
  NoDup enhanced_prompts.
Proof.
  split; [|split].
  - intros n. unfold enhance_prompt.
    do 5 (destruct n as [|n]; [reflexivity|]). reflexivity.
  - intros n Hn. unfold enhance_prompt.
    do 4 (destruct n as [|n]; [lia|]). destruct n; reflexivity.
  - apply (bool_decide_unpack _). vm_compute. exact I.
Qed.

Lemma enhance_prompt_clamped_witness :
  enhance_prompt 9
  = py "MANDATORY: Include substantial thoughts (>10 words) in <think></think> tags at the end".
Proof.
  apply (proj1 (proj2 enhance_prompt_clamped) 9). lia.
Defined.

Lemma recent_history_suffix h :
  exists old, h = old ++ recent_history h /\
              length (recent_history h) = Nat.min (length h) 10.
Proof.
  unfold recent_history. destruct (Nat.ltb_spec 10 (length h)) as [Hlt|Hge].
  - exists (firstn (length h - 10) h).
    split; [symmetry; apply firstn_skipn|].
    rewrite length_skipn. lia.
  - exists []. split; [reflexivity|lia].
Qed.

(** X13.  The first request is the system prompt, then the last ten
    entries of the history (all of it when it has at most ten; older
    entries are dropped), then the user prompt: at most twelve
    messages. *)
Theorem initial_messages_shape (w : ChatWorker) :
  exists old recent,
    message_history w = old ++ recent /\
    length recent = Nat.min (length (message_history w)) 10 /\
    initial_messages w
    = Msg SYSTEM (system_prompt w) :: recent ++ [Msg USER (prompt w)] /\
    length (initial_messages w) <= 12.
Proof.
  destruct (recent_history_suffix (message_history w)) as (old & E & L).
  exists old, (recent_history (message_history w)).
  split; [exact E|]. split; [exact L|]. split; [reflexivity|].
  unfold initial_messages. rewrite !length_app, L. simpl. lia.
Qed.

(** ** The worker's run *)

(** X14.  When the first reply is an answer followed by one reasoning
    block whose trimmed text has at least 10 characters (both plain
    text), [run] calls the server once, with the initial messages, and
    emits [finished] with the trimmed answer and the trimmed
    reasoning. *)
Theorem run_emits_answer_and_reasoning
        (w : ChatWorker) (a r : str) (rest : list (result worker_exn str)) :
  1 <= max_retries w ->
  plain a = true -> plain r = true ->
  10 <= length (strip r) ->
  run stub_chat w (MkStub (Ret (a ++ OPEN ++ r ++ CLOSE) :: rest) [])
  = (Some (EmitFinished (strip a) (strip r)),
     MkStub rest [initial_messages w]).
Proof.
  intros Hmax Ha Hr Hlen. unfold run, get_valid_response.
  destruct (max_retries w) as [|k]; [lia|].
  cbn [attempts stub_chat script calls app].
  pose proof (validate_one_block_aux a r [] Ha Hr eq_refl) as V.
  rewrite app_nil_r in V. rewrite V.
  apply Nat.leb_le in Hlen. rewrite Hlen.
  destruct (extract_one_block_aux a r [] (plain_markup_free a Ha)
              (plain_markup_free r Hr) eq_refl) as [_ ->].
  reflexivity.
Qed.

Lemma run_emits_answer_and_reasoning_witness :
  run stub_chat example_worker
      (MkStub (Ret (py "Four. " ++ OPEN ++ py " two plus two " ++ CLOSE) :: []) [])
  = (Some (EmitFinished (strip (py "Four. ")) (strip (py " two plus two "))),
     MkStub [] [initial_messages example_worker]).
Proof.
  apply (run_emits_answer_and_reasoning example_worker
           (py "Four. ") (py " two plus two ") []).
  - simpl. lia.
  - reflexivity.
  - reflexivity.
  - vm_compute. lia.
Defined.

(** ** Replies with two reasoning blocks *)

Lemma cut_skip_markup_free sep' u s :
  markup_free u = true ->
  cut (60%N :: sep') (u ++ s)
  = match cut (60%N :: sep') s with
    | Some (p, q) => Some (u ++ p, q)
    | None => None
    end.
Proof.
  induction u as [|c u IH]; intros H.
  - cbn [app]. destruct (cut (60%N :: sep') s) as [[p q]|]; reflexivity.
  - simpl in H. apply andb_prop in H as [Hc Hu]. apply negb_true_iff in Hc.
    change ((c :: u) ++ s) with (c :: (u ++ s)).
    cbn [cut strip_prefix]. rewrite N.eqb_sym, Hc, (IH Hu).
    destruct (cut (60%N :: sep') s) as [[p q]|]; reflexivity.
Qed.

Lemma cut_OPEN_skip_CLOSE s :
  cut OPEN (CLOSE ++ s)
  = match cut OPEN s with
    | Some (p, q) => Some (CLOSE ++ p, q)
    | None => None
    end.
Proof.
  change (CLOSE ++ s) with (60%N :: (py "/think>" ++ s)).
  assert (P : strip_prefix OPEN (60%N :: (py "/think>" ++ s)) = None)
    by reflexivity.
  cbn [cut]. rewrite P.
  change OPEN with (60%N :: py "think>").
  rewrite (cut_skip_markup_free (py "think>") (py "/think>") s eq_refl).
  destruct (cut (60%N :: py "think>") s) as [[p q]|]; reflexivity.
Qed.

Lemma strip_join_after s : strip (strip [] ++ py " " ++ strip s) = strip s.
Proof.
  rewrite (strip_split (strip [] ++ py " " ++ strip s)).
  change (lstrip (strip [] ++ py " " ++ strip s)) with (lstrip (strip s)).
  rewrite lstrip_strip, (strip_split s), rstrip_idem. reflexivity.
Qed.

Lemma wrap_two_blocks r0 a r :
  wrap (OPEN ++ r0 ++ CLOSE ++ a ++ OPEN ++ r ++ CLOSE)
  = 60%N :: py "root" ++ 62%N ::
      ([] ++ 60%N :: py "think" ++ 62%N ::
         (r0 ++ 60%N :: py "/think" ++ 62%N ::
            (a ++ 60%N :: py "think" ++ 62%N ::
               (r ++ 60%N :: py "/think" ++ 62%N ::
                  ([] ++ 60%N :: py "/root" ++ 62%N :: []))))).
Proof. unfold wrap. rewrite <- !app_assoc. reflexivity. Qed.

Lemma fromstring_two_blocks r0 a r :
  plain r0 = true -> plain a = true -> plain r = true ->
  fromstring (wrap (OPEN ++ r0 ++ CLOSE ++ a ++ OPEN ++ r ++ CLOSE))
  = Parsed (two_block_tree r0 a r).
Proof.
  intros H0 Ha Hr. unfold fromstring.
  assert (F : forallb fragment_char
                (wrap (OPEN ++ r0 ++ CLOSE ++ a ++ OPEN ++ r ++ CLOSE)) = true).
  { unfold wrap. rewrite !forallb_app.
    rewrite (plain_fragment r0 H0), (plain_fragment a Ha), (plain_fragment r Hr).
    reflexivity. }
  rewrite F, wrap_two_blocks.
  rewrite (lex_tag (py "root") (TStart ROOT)) by reflexivity. cbn [app].
  rewrite (lex_tag (py "think") (TStart THINK)) by reflexivity.
  rewrite (lex_text r0 [] _ H0). cbn [app].
  rewrite (lex_tag (py "/think") (TEnd THINK)) by reflexivity.
  rewrite (lex_text a [] _ Ha). cbn [app].
  rewrite (lex_tag (py "think") (TStart THINK)) by reflexivity.
  rewrite (lex_text r [] _ Hr). cbn [app].
  rewrite (lex_tag (py "/think") (TEnd THINK)) by reflexivity.
  rewrite (lex_tag (py "/root") (TEnd ROOT)) by reflexivity.
  cbn [lex option_map]. rewrite !text_token_data. unfold two_block_tree.
  destruct (data r0), (data a), (data r); vm_compute; reflexivity.
Qed.

Lemma validate_two_block_tree t0 ta tr :
  validate_tree
    (Elem ROOT None [Elem THINK t0 [] ta; Elem THINK tr [] None] None)
  = Ret (negb (too_short tr)).
Proof.
  unfold validate_tree.
  assert (F : findall_descendants THINK
                (Elem ROOT None [Elem THINK t0 [] ta; Elem THINK tr [] None] None)
              = [([0], Elem THINK t0 [] ta); ([1], Elem THINK tr [] None)])
    by (vm_compute; reflexivity).
  assert (P : find_with_child THINK
                (Elem ROOT None [Elem THINK t0 [] ta; Elem THINK tr [] None] None)
              = None) by (vm_compute; reflexivity).
  assert (I : filter (fun n => has_tag THINK n = true)
                (iter (Elem ROOT None
                         [Elem THINK t0 [] ta; Elem THINK tr [] None] None))
              = [([0], Elem THINK t0 [] ta); ([1], Elem THINK tr [] None)])
    by (vm_compute; reflexivity).
  rewrite F, P, I. cbn [last snd text].
  destruct (too_short tr); reflexivity.
Qed.

(** X15.  The validator judges the last reasoning block, the splitter
    returns the first.  For a reply that opens with a reasoning block,
    goes on with text and ends with a second block (all plain text), the
    verdict depends on the second block alone, while the reasoning
    extracted is the trimmed first block and the second block is
    dropped from the result: a validated reply can come back with short
    or empty reasoning. *)
Theorem validator_and_splitter_read_different_blocks (r0 a r : str) :
  plain r0 = true -> plain a = true -> plain r = true ->
  validate_response (OPEN ++ r0 ++ CLOSE ++ a ++ OPEN ++ r ++ CLOSE)
  = Some (Ret (10 <=? length (strip r))) /\
  extract_content_and_thoughts (OPEN ++ r0 ++ CLOSE ++ a ++ OPEN ++ r ++ CLOSE)
  = (strip a, strip r0).
Proof.
  intros H0 Ha Hr. split.
  - unfold validate_response.
    rewrite (fromstring_two_blocks r0 a r H0 Ha Hr).
    unfold two_block_tree. rewrite validate_two_block_tree, too_short_data.
    reflexivity.
  - pose proof (plain_markup_free r0 H0) as M0.
    pose proof (plain_markup_free a Ha) as Ma.
    rewrite extract_cases_ok. unfold extract_cases.
    change (OPEN ++ r0 ++ CLOSE ++ a ++ OPEN ++ r ++ CLOSE)
      with ([] ++ OPEN ++ (r0 ++ CLOSE ++ a ++ OPEN ++ r ++ CLOSE)).
    change OPEN with (60%N :: py "think>") at 1 2.
    rewrite (cut_after_markup_free (py "think>") [] _ eq_refl).
    assert (B : before OPEN (r0 ++ CLOSE ++ a ++ OPEN ++ r ++ CLOSE)
                = r0 ++ CLOSE ++ a).
    { unfold before. change OPEN with (60%N :: py "think>") at 1.
      rewrite (cut_skip_markup_free (py "think>") r0 _ M0).
      change (60%N :: py "think>") with OPEN.
      rewrite cut_OPEN_skip_CLOSE.
      change OPEN with (60%N :: py "think>").
      rewrite (cut_after_markup_free (py "think>") a _ Ma).
      reflexivity. }
    rewrite B.
    change CLOSE with (60%N :: py "/think>") at 1 2.
    rewrite (cut_after_markup_free (py "/think>") r0 a M0).
    unfold before. change CLOSE with (60%N :: py "/think>").
    rewrite (cut_markup_free (py "/think>") a Ma).
    rewrite strip_join_after. reflexivity.
Qed.

Lemma validator_and_splitter_read_different_blocks_witness :
  validate_response
    (OPEN ++ py "" ++ CLOSE ++ py "Four." ++ OPEN
          ++ py "two plus two is four" ++ CLOSE)
  = Some (Ret (10 <=? length (strip (py "two plus two is four")))) /\
  extract_content_and_thoughts
    (OPEN ++ py "" ++ CLOSE ++ py "Four." ++ OPEN
          ++ py "two plus two is four" ++ CLOSE)
  = (strip (py "Four."), strip (py "")).
Proof.
  apply (validator_and_splitter_read_different_blocks
           (py "") (py "Four.") (py "two plus two is four")); reflexivity.
Defined.

(** ** The chat store, further *)

(** X16.  Renaming a chat that is in the catalog succeeds; it replaces
    the title and the update time of that entry and keeps its creation
    time and messages; every other entry, all record files and the
    active chat stay as they were, and the catalog is written to
    disk. *)
Theorem update_chat_title_effect
        (m : ChatManager) (i new_title t : str) (e : ChatMeta) :
  chats_metadata m !! i = Some e ->
  fst (update_chat_title i new_title t m) = Ret tt /\
  chats_metadata (snd (update_chat_title i new_title t m)) !! i
  = Some (Meta (created_at e) t new_title (messages e)) /\
  (forall j, j <> i ->
     chats_metadata (snd (update_chat_title i new_title t m)) !! j
     = chats_metadata m !! j) /\
  chat_files (snd (update_chat_title i new_title t m)) = chat_files m /\
  active_chat_id (snd (update_chat_title i new_title t m)) = active_chat_id m /\
  metadata_file (snd (update_chat_title i new_title t m))
  = chats_metadata (snd (update_chat_title i new_title t m)).
Proof.
  intros M. unfold update_chat_title. rewrite M. store_simpl.
  split; [reflexivity|]. split; [apply lookup_insert_eq|].
  split; [|repeat split].
  intros j Hj. apply lookup_insert_ne. congruence.
Qed.

Lemma update_chat_title_effect_witness :
  chats_metadata
    (snd (update_chat_title (py "c1") (py "Trip plan") (py "t1")
            (snd (create_new_chat (py "c1") (py "t0") empty_manager))))
  !! py "c1"
  = Some (Meta (py "t0") (py "t1") (py "Trip plan") (Some [])).
Proof.
  apply (update_chat_title_effect
           (snd (create_new_chat (py "c1") (py "t0") empty_manager))
           (py "c1") (py "Trip plan") (py "t1")
           (Meta (py "t0") (py "t0") (default_title empty_manager) (Some []))).
  unfold create_new_chat. store_simpl. apply lookup_insert_eq.
Defined.



(** X18.  Without an active chat (none set, or the empty id)
    [save_message] raises ["No active chat"] and writes nothing. *)
Theorem save_message_without_active_chat
        (m : ChatManager) (role content t : str) :
  active_chat_id m = None \/ active_chat_id m = Some [] ->
  save_message role content t m = (Raise (StoreError (py "No active chat")), m).
Proof.
  intros [A|A]; unfold save_message; rewrite A; reflexivity.
Qed.

Lemma save_message_without_active_chat_witness :
  save_message USER (py "hi") (py "t1") empty_manager
  = (Raise (StoreError (py "No active chat")), empty_manager).
Proof.
  apply save_message_without_active_chat. left. reflexivity.
Defined.

Lemma save_message_appends_aux
        (m : ChatManager) (a role content t : str) (e : ChatMeta) :
  active_chat_id m = Some a -> a <> [] ->
  chats_metadata m !! a = Some e ->
  fst (save_message role content t m) = Ret tt /\
  chat_files (snd (save_message role content t m)) !! a
  = Some (or_empty (chat_files m !! a) ++ [Stored role content t]) /\
  chats_metadata (snd (save_message role content t m)) !! a
  = Some (Meta (created_at e) t (title e)
               (Some (or_empty (messages e) ++ [Stored role content t]))) /\
  (forall j, j <> a ->
     chat_files (snd (save_message role content t m)) !! j = chat_files m !! j /\
     chats_metadata (snd (save_message role content t m)) !! j
     = chats_metadata m !! j) /\
  active_chat_id (snd (save_message role content t m)) = Some a /\
  metadata_file (snd (save_message role content t m))
  = chats_metadata (snd (save_message role content t m)).
Proof.
  intros A Ha M. unfold save_message. rewrite A.
  destruct a as [|a0 a]; [congruence|]. store_simpl. rewrite M. store_simpl.
  split; [reflexivity|].
  split; [rewrite lookup_insert_eq; destruct (chat_files m !! (a0 :: a));
          reflexivity|].
  split; [rewrite lookup_insert_eq; destruct (messages e); reflexivity|].
  split; [|split; reflexivity].
  intros j Hj. split; apply lookup_insert_ne; congruence.
Qed.

(** X19.  When the active chat is in the catalog, [save_message]
    succeeds: the message is appended to the chat's record (a missing
    record counts as empty) and to the messages of its catalog entry (a
    missing list counts as empty), the entry's update time is set and
    its title and creation time are kept; other chats' records and
    entries and the active chat are untouched, and the catalog is
    written to disk. *)
Theorem save_message_appends
        (m : ChatManager) (a role content t : str) (e : ChatMeta) :
  active_chat_id m = Some a -> a <> [] ->
  chats_metadata m !! a = Some e ->
  fst (save_message role content t m) = Ret tt /\
  chat_files (snd (save_message role content t m)) !! a
  = Some (or_empty (chat_files m !! a) ++ [Stored role content t]) /\
  chats_metadata (snd (save_message role content t m)) !! a
  = Some (Meta (created_at e) t (title e)
               (Some (or_empty (messages e) ++ [Stored role content t]))) /\
  (forall j, j <> a ->
     chat_files (snd (save_message role content t m)) !! j = chat_files m !! j /\
     chats_metadata (snd (save_message role content t m)) !! j
     = chats_metadata m !! j) /\
  active_chat_id (snd (save_message role content t m)) = Some a /\
  metadata_file (snd (save_message role content t m))
  = chats_metadata (snd (save_message role content t m)).
Proof.
  intros. apply save_message_appends_aux; assumption.
Qed.

Lemma save_message_appends_witness :
  chat_files
    (snd (save_message USER (py "hi") (py "t1")
            (snd (create_new_chat (py "c1") (py "t0") empty_manager))))
  !! py "c1"
  = Some (or_empty
            (chat_files (snd (create_new_chat (py "c1") (py "t0") empty_manager))
             !! py "c1")
          ++ [Stored USER (py "hi") (py "t1")]).
Proof.
  apply (save_message_appends
           (snd (create_new_chat (py "c1") (py "t0") empty_manager))
           (py "c1") USER (py "hi") (py "t1")
           (Meta (py "t0") (py "t0") (default_title empty_manager) (Some []))).
  - reflexivity.
  - discriminate.
  - unfold create_new_chat. store_simpl. apply lookup_insert_eq.
Defined.

(** X20.  [save_message] is not atomic.  When the active chat has a
    record file but no catalog entry (a record left in the directory
    that [load_chat] has made active), the message is written to the
    record and then the catalog update raises [KeyError]: the record has
    grown, the catalog in memory and on disk has not. *)
Theorem save_message_record_without_entry
        (m : ChatManager) (a role content t : str) :
  active_chat_id m = Some a -> a <> [] ->
  chats_metadata m !! a = None ->
  fst (save_message role content t m) = Raise (KeyError a) /\
  chat_files (snd (save_message role content t m)) !! a
  = Some (or_empty (chat_files m !! a) ++ [Stored role content t]) /\
  chats_metadata (snd (save_message role content t m)) = chats_metadata m /\
  metadata_file (snd (save_message role content t m)) = metadata_file m.
Proof.
  intros A Ha M. unfold save_message. rewrite A.
  destruct a as [|a0 a]; [congruence|]. store_simpl. rewrite M. store_simpl.
  split; [reflexivity|].
  split; [rewrite lookup_insert_eq; destruct (chat_files m !! (a0 :: a));
          reflexivity|].
  split; reflexivity.
Qed.

Lemma orphan_manager_facts :
  active_chat_id orphan_manager = Some (py "old") /\
  chats_metadata orphan_manager !! py "old" = None.
Proof.
  unfold orphan_manager, init. store_simpl.
  destruct (decide ((∅ : gmap str ChatMeta) = ∅)) as [_|Hne]; [|congruence].
  unfold create_new_chat, load_chat. store_simpl.
  rewrite lookup_insert_ne by discriminate.
  rewrite lookup_singleton_eq. store_simpl.
  split; [reflexivity|].
  rewrite lookup_insert_ne by discriminate. apply lookup_empty.
Qed.

Lemma save_message_record_without_entry_witness :
  fst (save_message USER (py "hi") (py "t1") orphan_manager)
  = Raise (KeyError (py "old")) /\
  chats_metadata (snd (save_message USER (py "hi") (py "t1") orphan_manager))
  = chats_metadata orphan_manager.
Proof.
  pose proof (save_message_record_without_entry orphan_manager (py "old")
                USER (py "hi") (py "t1")
                (proj1 orphan_manager_facts) ltac:(discriminate)
                (proj2 orphan_manager_facts)) as H.
  split; apply H.
Defined.

Lemma save_all_appends i :
  i <> [] ->
  forall msgs m acc e,
    active_chat_id m = Some i ->
    chat_files m !! i = Some acc ->
    chats_metadata m !! i = Some e ->
    messages e = Some acc ->
    active_chat_id (save_all msgs m) = Some i /\
    chat_files (save_all msgs m) !! i = Some (acc ++ msgs) /\
    exists e',
      chats_metadata (save_all msgs m) !! i = Some e' /\
      messages e' = Some (acc ++ msgs).
Proof.
  intros Hi. induction msgs as [|x msgs IH]; intros m acc e A F M E.
  - rewrite app_nil_r. cbn [save_all fold_left]. eauto.
  - change (save_all (x :: msgs) m)
      with (save_all msgs
              (snd (save_message (s_role x) (s_content x) (s_timestamp x) m))).
    destruct (save_message_appends_aux m i (s_role x) (s_content x) (s_timestamp x)
                e A Hi M) as (_ & F' & M' & _ & A' & _).
    rewrite F in F'. rewrite E in M'. cbn [or_empty] in F', M'.
    destruct x as [r c t]. cbn [s_role s_content s_timestamp] in *.
    destruct (IH _ _ _ A' F' M' eq_refl) as (A2 & F2 & e2 & M2 & E2).
    rewrite <- app_assoc in F2, E2. eauto.
Qed.

(** X21.  Messages saved to a newly created chat come back from
    [load_chat] complete and in the order they were saved, and the
    catalog entry of the chat holds the same list. *)
Theorem saved_messages_load_in_order
        (m : ChatManager) (i t0 : str) (msgs : list StoredMessage) :
  i <> [] ->
  fst (load_chat i (save_all msgs (snd (create_new_chat i t0 m)))) = Ret msgs /\
  exists e,
    chats_metadata (save_all msgs (snd (create_new_chat i t0 m))) !! i = Some e /\
    messages e = Some msgs.
Proof.
  intros Hi.
  destruct (save_all_appends i Hi msgs (snd (create_new_chat i t0 m)) []
              (Meta t0 t0 (default_title m) (Some [])))
    as (_ & F & e & M & E).
  - reflexivity.
  - unfold create_new_chat. store_simpl. apply lookup_insert_eq.
  - unfold create_new_chat. store_simpl. apply lookup_insert_eq.
  - reflexivity.
  - cbn [app] in F, E. split; [|eauto].
    unfold load_chat. rewrite F. reflexivity.
Qed.

Lemma saved_messages_load_in_order_witness :
  fst (load_chat (py "c1")
         (save_all [Stored USER (py "hi") (py "t1");
                    Stored (py "assistant") (py "hello") (py "t2")]
                   (snd (create_new_chat (py "c1") (py "t0") empty_manager))))
  = Ret [Stored USER (py "hi") (py "t1");
         Stored (py "assistant") (py "hello") (py "t2")].
Proof.
  apply (saved_messages_load_in_order empty_manager (py "c1") (py "t0")).
  discriminate.
Defined.

(** X22.  Deleting a chat of the catalog removes its record and its
    entry and nothing else; afterwards loading it or deleting it again
    raises ["Chat <id> not found"]. *)
Theorem delete_chat_removes
        (m : ChatManager) (i : str) (e : ChatMeta) :
  chats_metadata m !! i = Some e ->
  chat_files (snd (delete_chat i m)) !! i = None /\
  chats_metadata (snd (delete_chat i m)) !! i = None /\
  (forall j, j <> i ->
     chat_files (snd (delete_chat i m)) !! j = chat_files m !! j /\
     chats_metadata (snd (delete_chat i m)) !! j = chats_metadata m !! j) /\
  fst (load_chat i (snd (delete_chat i m)))
  = Raise (StoreError (py "Chat " ++ i ++ py " not found")) /\
  fst (delete_chat i (snd (delete_chat i m)))
  = Raise (StoreError (py "Chat " ++ i ++ py " not found")).
Proof.
  intros M.
  assert (F : chat_files (snd (delete_chat i m)) = delete i (chat_files m)
              /\ chats_metadata (snd (delete_chat i m))
                 = delete i (chats_metadata m)).
  { unfold delete_chat. rewrite M. store_simpl.
    destruct (decide (active_chat_id m = Some i)); split; reflexivity. }
  destruct F as [F1 F2].
  assert (L1 : chat_files (snd (delete_chat i m)) !! i = None)
    by (rewrite F1; apply lookup_delete_eq).
  assert (L2 : chats_metadata (snd (delete_chat i m)) !! i = None)
    by (rewrite F2; apply lookup_delete_eq).
  split; [exact L1|]. split; [exact L2|]. split; [|split].
  - intros j Hj. rewrite F1, F2.
    split; apply lookup_delete_ne; congruence.
  - unfold load_chat. rewrite L1. reflexivity.
  - unfold delete_chat at 1. rewrite L2. reflexivity.
Qed.

Lemma delete_chat_removes_witness :
  fst (load_chat (py "c1")
         (snd (delete_chat (py "c1")
                 (snd (create_new_chat (py "c1") (py "t0") empty_manager)))))
  = Raise (StoreError (py "Chat " ++ py "c1" ++ py " not found")).
Proof.
  apply (delete_chat_removes
           (snd (create_new_chat (py "c1") (py "t0") empty_manager)) (py "c1")
           (Meta (py "t0") (py "t0") (default_title empty_manager) (Some []))).
  unfold create_new_chat. store_simpl. apply lookup_insert_eq.
Defined.

(** X23.  [get_chat_list] lists the catalog: one triple of id, title
    and update time for every entry, nothing else, and no id twice. *)
Theorem get_chat_list_entries (m : ChatManager) :
  (forall i t u,
     (i, t, u) ∈ get_chat_list m <->
     exists e, chats_metadata m !! i = Some e /\ title e = t /\ updated_at e = u) /\
  length (get_chat_list m) = size (chats_metadata m) /\
  NoDup ((fun x => fst (fst x)) <$> get_chat_list m).
Proof.
  unfold get_chat_list. split; [|split].
  - intros i t u. rewrite list_elem_of_fmap. split.
    + intros ([j e] & [= -> -> ->] & H). apply elem_of_map_to_list in H.
      exists e. auto.
    + intros (e & H & <- & <-). exists (i, e).
      split; [reflexivity|]. apply elem_of_map_to_list, H.
  - rewrite length_fmap. apply length_map_to_list.
  - rewrite <- list_fmap_compose.
    apply (NoDup_fst_map_to_list (chats_metadata m)).
Qed.

Lemma init_cases_aux
        (files : gmap str (list StoredMessage)) (c : gmap str ChatMeta)
        (i t : str) :
  (c <> ∅ -> init files (Some c) i t = Manager files c c None) /\
  init files (Some ∅) i t = init files None i t /\
  init files None i t
  = Manager (<[i := []]> files)
            {[i := Meta t t (py "Chat 1") (Some [])]}
            {[i := Meta t t (py "Chat 1") (Some [])]}
            (Some i).
Proof.
  split; [|split].
  - intros Hc. unfold init. store_simpl.
    destruct (decide (c = ∅)); [contradiction|reflexivity].
  - reflexivity.
  - unfold init. store_simpl.
    destruct (decide ((∅ : gmap str ChatMeta) = ∅)) as [_|Hne]; [|congruence].
    unfold create_new_chat, default_title. store_simpl.
    rewrite map_size_empty. rewrite insert_empty. reflexivity.
Qed.

(** X24.  Starting the manager: with a catalog on disk that has entries,
    the catalog is loaded as it is, no chat is created and no chat is
    active; with no catalog file, or an empty one, exactly one chat is
    created, titled ["Chat 1"], with an empty record, and it is the
    active chat. *)
Theorem init_cases
        (files : gmap str (list StoredMessage)) (c : gmap str ChatMeta)
        (i t : str) :
  (c <> ∅ -> init files (Some c) i t = Manager files c c None) /\
  init files (Some ∅) i t = init files None i t /\
  init files None i t
  = Manager (<[i := []]> files)
            {[i := Meta t t (py "Chat 1") (Some [])]}
            {[i := Meta t t (py "Chat 1") (Some [])]}
            (Some i).
Proof.
  intros. apply init_cases_aux; assumption.
Qed.

Lemma init_cases_witness :
  init ∅ (Some {[py "c0" := Meta (py "t") (py "t") (py "Trip") (Some [])]})
       (py "c1") (py "t0")
  = Manager ∅ {[py "c0" := Meta (py "t") (py "t") (py "Trip") (Some [])]}
            {[py "c0" := Meta (py "t") (py "t") (py "Trip") (Some [])]} None.
Proof.
  apply (proj1 (init_cases ∅
                  {[py "c0" := Meta (py "t") (py "t") (py "Trip") (Some [])]}
                  (py "c1") (py "t0"))).
  intros H.
  assert (E : ({[py "c0" := Meta (py "t") (py "t") (py "Trip") (Some [])]}
               : gmap str ChatMeta) !! py "c0" = None)
    by (rewrite H; apply lookup_empty).
  rewrite lookup_singleton_eq in E. discriminate.
Defined.

(** ** The window: history and records *)

Lemma window_create_eq i t win :
  window_create_new_chat i t win
  = Window (snd (create_new_chat i t (chat_manager win))) []
           ({[i]} ∪ chat_buttons win).
Proof. reflexivity. Qed.

Lemma window_create_invariant i t win :
  store_invariant (chat_manager win) ->
  window_invariant (window_create_new_chat i t win).
Proof.
  intros H. rewrite window_create_eq. split; cbn [chat_manager history].
  - apply create_invariant, H.
  - intros a. unfold create_new_chat. store_simpl. intros [= <-].
    exists []. split; [apply lookup_insert_eq|reflexivity].
Qed.

(** A step of the manager that keeps the active chat's record keeps the
    invariant of the window. *)
Lemma window_invariant_frame m m' h bs bs' :
  store_invariant m' ->
  (forall a, active_chat_id m' = Some a ->
     active_chat_id m = Some a /\ chat_files m' !! a = chat_files m !! a) ->
  window_invariant (Window m h bs) ->
  window_invariant (Window m' h bs').
Proof.
  intros Hs Hf [_ Hh]. split; [exact Hs|].
  cbn [chat_manager history] in *. intros a Ha.
  destruct (Hf a Ha) as [Ha' ->]. apply Hh, Ha'.
Qed.

Lemma update_chat_title_frame i n t m :
  chat_files (snd (update_chat_title i n t m)) = chat_files m /\
  active_chat_id (snd (update_chat_title i n t m)) = active_chat_id m.
Proof.
  unfold update_chat_title. destruct (chats_metadata m !! i);
    split; reflexivity.
Qed.

Lemma retitle_frame n t m :
  store_invariant m ->
  store_invariant (snd (retitle n t m)) /\
  chat_files (snd (retitle n t m)) = chat_files m /\
  active_chat_id (snd (retitle n t m)) = active_chat_id m.
Proof.
  intros H. unfold retitle. destruct (active_chat_id m) as [a|] eqn:A.
  - split; [apply rename_invariant, H|].
    rewrite <- A. apply update_chat_title_frame.
  - cbn [snd]. rewrite A. split; [exact H|split; reflexivity].
Qed.

Lemma title_step_frame i m :
  store_invariant m ->
  store_invariant (snd (title_step i m)) /\
  chat_files (snd (title_step i m)) = chat_files m /\
  active_chat_id (snd (title_step i m)) = active_chat_id m.
Proof.
  intros H. unfold title_step. destruct (titled i) as [new_title|e].
  - destruct (retitle_frame new_title (retitled i) m H) as (H1 & F1 & A1).
    destruct (retitle new_title (retitled i) m) as [[u|e] m'];
      cbn [snd] in *.
    + split; [exact H1|split; assumption].
    + destruct (retitle_frame (fallback_title (clock i))
                  (retitled_fallback i) m' H1) as (H2 & F2 & A2).
      split; [exact H2|]. split; congruence.
  - apply retitle_frame, H.
Qed.

Lemma project_snoc msgs r c t :
  project (msgs ++ [Stored r c t]) = project msgs ++ [Msg r c].
Proof. unfold project. rewrite map_app. reflexivity. Qed.

(** A [save_message] on a window that satisfies the invariant: if it
    returns, the record of the active chat and the history extended by
    the message agree again; if it raises, nothing was written. *)
Lemma window_save_invariant r c t m h bs :
  window_invariant (Window m h bs) ->
  match fst (save_message r c t m) with
  | Ret _ =>
      window_invariant (Window (snd (save_message r c t m))
                               (h ++ [Msg r c]) bs) /\
      exists a msgs e,
        a <> [] /\
        active_chat_id m = Some a /\
        chat_files m !! a = Some msgs /\
        active_chat_id (snd (save_message r c t m)) = Some a /\
        chat_files (snd (save_message r c t m)) !! a
        = Some (msgs ++ [Stored r c t]) /\
        chats_metadata (snd (save_message r c t m)) !! a = Some e /\
        is_Some (messages e)
  | Raise _ => snd (save_message r c t m) = m
  end.
Proof.
  intros [Hs Hh]. cbn [chat_manager history] in *.
  destruct (fst (save_message r c t m)) as [u|e] eqn:R.
  - destruct (active_chat_id m) as [a|] eqn:A.
    2:{ unfold save_message in R. rewrite A in R. discriminate. }
    destruct a as [|a0 a'].
    { unfold save_message in R. rewrite A in R. discriminate. }
    set (a := a0 :: a') in *.
    destruct Hs as (Hc & Hrec & Hact).
    destruct (Hact a A) as [e M].
    destruct (Hh a eq_refl) as (msgs & F & Hp).
    destruct (save_message_appends_aux m a r c t e A ltac:(discriminate) M)
      as (_ & F' & M' & Hother & A' & _).
    rewrite F in F'. cbn [or_empty] in F'.
    split.
    + split; cbn [chat_manager history].
      * apply save_invariant. split; [exact Hc|split; assumption].
      * intros b Hb. rewrite A' in Hb. injection Hb as <-.
        exists (msgs ++ [Stored r c t]). split; [exact F'|].
        rewrite project_snoc, Hp. reflexivity.
    + exists a, msgs. eexists. split; [discriminate|].
      split; [reflexivity|]. split; [exact F|]. split; [exact A'|].
      split; [exact F'|]. split; [exact M'|]. eauto.
  - pose proof (raise_changes_nothing m (Append r c t) Hs) as H.
    cbn beta iota in H. apply (H e R).
Qed.

Lemma send_message_invariant text i win :
  window_invariant win -> window_invariant (snd (send_message text i win)).
Proof.
  intros J. unfold send_message.
  destruct (strip text) as [|c0 cs] eqn:S; [exact J|].
  set (message := c0 :: cs).
  set (win1 := match active_chat_id (chat_manager win) with
               | None => window_create_new_chat (new_chat_id i) (created i) win
               | Some _ => win
               end).
  assert (J1 : window_invariant win1).
  { unfold win1. destruct (active_chat_id (chat_manager win)); [exact J|].
    apply window_create_invariant, J. }
  destruct win1 as [m1 h1 bs1]. cbn [chat_manager history chat_buttons].
  pose proof (window_save_invariant USER message (saved i) m1 h1 bs1 J1) as Hs.
  destruct (save_message USER message (saved i) m1) as [[u|e] m2];
    cbn [fst snd] in Hs.
  - destruct Hs as [J2 _].
    destruct (is_new_chat m2) as [[|]|e]; cbn [snd]; try exact J2.
    destruct (title_step_frame i m2 (proj1 J2)) as (H3 & F3 & A3).
    destruct (title_step i m2) as [[u'|e'] m3]; cbn [snd] in *;
      refine (window_invariant_frame m2 _ _ bs1 _ H3 _ J2);
      intros a Ha; rewrite <- A3, F3; (split; [exact Ha|reflexivity]).
  - cbn [snd]. subst m2. exact J1.
Qed.

Lemma act_invariant win a :
  window_invariant win -> window_invariant (act win a).
Proof.
  intros J. destruct a; cbn [act].
  - apply window_create_invariant, J.
  - unfold window_load_chat, load_chat.
    destruct (chat_files (chat_manager win) !! chat_id) as [msgs|] eqn:F.
    + split; cbn [chat_manager history].
      * pose proof (load_invariant chat_id (chat_manager win) (proj1 J)) as H.
        unfold load_chat in H. rewrite F in H. exact H.
      * intros a [= <-]. exists msgs. split; [exact F|reflexivity].
    + destruct win. exact J.
  - apply send_message_invariant, J.
  - unfold handle_response. destruct win as [m h bs].
    cbn [chat_manager history chat_buttons].
    pose proof (window_save_invariant ASSISTANT response timestamp m h bs J)
      as Hs.
    destruct (save_message ASSISTANT response timestamp m) as [[u|e] m2];
      cbn [fst snd] in *.
    + apply Hs.
    + subst m2. exact J.
  - unfold panel_delete_chat. destruct confirmed; [|exact J].
    destruct win as [m h bs]. cbn [chat_manager history chat_buttons].
    pose proof (delete_invariant chat_id m (proj1 J)) as Hd.
    assert (Hf : forall a,
      active_chat_id (snd (delete_chat chat_id m)) = Some a ->
      active_chat_id m = Some a /\
      chat_files (snd (delete_chat chat_id m)) !! a = chat_files m !! a).
    { unfold delete_chat. destruct (chats_metadata m !! chat_id);
        store_simpl; [|auto].
      destruct (decide (active_chat_id m = Some chat_id)) as [E|E];
        store_simpl; [discriminate|].
      intros a Ha. split; [exact Ha|].
      apply lookup_delete_ne. congruence. }
    destruct (delete_chat chat_id m) as [[u|e] m2]; cbn [snd] in *.
    + cbn [chat_buttons].
      destruct (decide (bs ∖ {[chat_id]} = ∅)).
      * apply window_create_invariant. exact Hd.
      * exact (window_invariant_frame m _ _ bs _ Hd Hf J).
    + exact (window_invariant_frame m _ _ bs _ Hd Hf J).
  - unfold panel_rename_chat.
    destruct (decide (chat_id ∈ chat_buttons win)); [|exact J].
    destruct ok; [|exact J]. destruct new_title as [|n0 ns]; [exact J|].
    destruct win as [m h bs]. cbn [chat_manager history chat_buttons].
    destruct (update_chat_title_frame chat_id (n0 :: ns) timestamp m)
      as [F A].
    refine (window_invariant_frame m _ _ bs _
              (rename_invariant _ _ _ _ (proj1 J)) _ J).
    intros a Ha. cbn [chat_manager history chat_buttons] in *.
    rewrite <- A, F. split; [exact Ha|reflexivity].
Qed.

Lemma init_not_empty files catalog i t :
  chats_metadata (init files catalog i t) <> ∅.
Proof.
  unfold init. store_simpl.
  destruct (decide (match catalog with Some c => c | None => ∅ end = ∅))
    as [E|E]; [|exact E].
  unfold create_new_chat. store_simpl. apply insert_non_empty.
Qed.

Lemma window_init_finds_a_chat_aux
        (files : gmap str (list StoredMessage))
        (catalog : option (gmap str ChatMeta))
        (chat_id timestamp new_id created : str) :
  chats_metadata (init files catalog chat_id timestamp) <> ∅ /\
  get_chat_list (init files catalog chat_id timestamp) <> [] /\
  window_init files catalog chat_id timestamp new_id created
  = Window (init files catalog chat_id timestamp) []
           (dom (chats_metadata (init files catalog chat_id timestamp))).
Proof.
  pose proof (init_not_empty files catalog chat_id timestamp) as Hne.
  assert (Hl : get_chat_list (init files catalog chat_id timestamp) <> []).
  { unfold get_chat_list. intros E. apply fmap_nil_inv in E.
    apply map_to_list_empty_iff in E. contradiction. }
  split; [exact Hne|]. split; [exact Hl|].
  unfold window_init.
  destruct (get_chat_list (init files catalog chat_id timestamp));
    [contradiction|reflexivity].
Qed.

(** X25.  When the manager has started, the catalog is never empty: a
    chat was created if there was none.  So the window finds a
    non-empty chat list and its own creation of an initial chat never
    runs; it starts with an empty history and one button per chat. *)
Theorem window_init_finds_a_chat
        (files : gmap str (list StoredMessage))
        (catalog : option (gmap str ChatMeta))
        (chat_id timestamp new_id created : str) :
  chats_metadata (init files catalog chat_id timestamp) <> ∅ /\
  get_chat_list (init files catalog chat_id timestamp) <> [] /\
  window_init files catalog chat_id timestamp new_id created
  = Window (init files catalog chat_id timestamp) []
           (dom (chats_metadata (init files catalog chat_id timestamp))).
Proof.
  intros. apply window_init_finds_a_chat_aux; assumption.
Qed.

Lemma window_init_invariant i t n c :
  window_invariant (window_init ∅ None i t n c).
Proof.
  destruct (window_init_finds_a_chat_aux ∅ None i t n c) as (_ & _ & ->).
  split; cbn [chat_manager history].
  - apply fresh_invariant.
  - destruct (init_cases_aux ∅ ∅ i t) as (_ & _ & ->). store_simpl.
    intros a [= <-]. exists []. split; [apply lookup_insert_eq|reflexivity].
Qed.

(** X26.  In a window started on an empty directory, after any sequence
    of new chats, switches, sent messages, responses, deletions and
    renamings, the history that is passed on to the model is exactly the
    record of the active chat, message by message, reduced to role and
    content (and the store invariant of C6 holds). *)
Theorem history_mirrors_active_record
        (chat_id timestamp new_id created : str) (actions : list action) :
  window_invariant
    (fold_left act actions
               (window_init ∅ None chat_id timestamp new_id created)).
Proof.
  assert (G : forall win, window_invariant win ->
                          window_invariant (fold_left act actions win)).
  { induction actions as [|a actions IH]; intros win J; [exact J|].
    cbn [fold_left]. apply IH, act_invariant, J. }
  apply G, window_init_invariant.
Qed.

Lemma recent_history_snoc h0 x :
  exists r, recent_history (h0 ++ [x]) = r ++ [x].
Proof.
  unfold recent_history. destruct (10 <? length (h0 ++ [x])) eqn:E.
  - apply Nat.ltb_lt in E. rewrite length_app in E. simpl in E.
    rewrite length_app. cbn [length].
    rewrite skipn_app.
    replace (length h0 + 1 - 10 - length h0) with 0 by lia.
    eexists. reflexivity.
  - eexists. reflexivity.
Qed.

(** X27.  Whenever [send_message] starts the worker, the prompt is the
    trimmed text of the input box and the history it passes already ends
    with that very message, because the message is appended to the
    history before [set_prompt] is called.  [get_valid_response] appends
    the prompt once more, so the first request to the model ends with
    the user's message twice. *)
Theorem send_message_repeats_prompt
        (text : str) (i : send_inputs) (win : MainWindow)
        (p : str) (h : list Message) :
  fst (send_message text i win) = Ret (Some (p, h)) ->
  p = strip text /\ p <> [] /\
  history (snd (send_message text i win)) = h /\
  (exists h0, h = h0 ++ [Msg USER p]) /\
  forall w, exists pre,
    initial_messages (set_prompt p h w) = pre ++ [Msg USER p; Msg USER p].
Proof.
  unfold send_message.
  destruct (strip text) as [|c0 cs] eqn:S; [discriminate|].
  set (message := c0 :: cs).
  set (win1 := match active_chat_id (chat_manager win) with
               | None => window_create_new_chat (new_chat_id i) (created i) win
               | Some _ => win
               end).
  assert (G : forall m,
    (Ret (Some (message, history win1 ++ [Msg USER message])) : result store_exn _,
     Window m (history win1 ++ [Msg USER message]) (chat_buttons win1)).1
    = Ret (Some (p, h)) ->
    p = message /\ p <> [] /\
    history (Window m (history win1 ++ [Msg USER message]) (chat_buttons win1))
    = h /\
    (exists h0, h = h0 ++ [Msg USER p]) /\
    forall w, exists pre,
      initial_messages (set_prompt p h w) = pre ++ [Msg USER p; Msg USER p]).
  { intros m [= <- <-]. split; [reflexivity|]. split; [discriminate|].
    split; [reflexivity|]. split; [eauto|].
    intros w. unfold initial_messages, set_prompt.
    cbn [system_prompt message_history prompt].
    destruct (recent_history_snoc (history win1) (Msg USER message))
      as [r ->].
    exists ([Msg SYSTEM (system_prompt w)] ++ r).
    rewrite <- !app_assoc. reflexivity. }
  destruct (save_message USER message (saved i) (chat_manager win1))
    as [[u|e] m2]; [|discriminate].
  destruct (is_new_chat m2) as [[|]|e]; [|apply G|discriminate].
  destruct (title_step i m2) as [[u'|e'] m3]; [apply G|discriminate].
Qed.

Lemma send_message_repeats_prompt_witness :
  exists pre,
    initial_messages
      (set_prompt (py "hi") [Msg USER (py "hi")] example_worker)
    = pre ++ [Msg USER (py "hi"); Msg USER (py "hi")].
Proof.
  apply (send_message_repeats_prompt (py " hi ") example_inputs example_window
           (py "hi") [Msg USER (py "hi")]).
  vm_compute. reflexivity.
Defined.

Lemma save_invariant_of m h bs :
  window_invariant (Window m h bs) ->
  forall r c t, store_invariant (snd (save_message r c t m)).
Proof. intros J r c t. apply save_invariant, J. Qed.

Lemma retitle_ok n t m a :
  active_chat_id m = Some a -> is_Some (chats_metadata m !! a) ->
  fst (retitle n t m) = Ret tt.
Proof.
  intros A [e M]. unfold retitle, update_chat_title. rewrite A, M. reflexivity.
Qed.

Lemma title_step_ok i m a :
  active_chat_id m = Some a -> is_Some (chats_metadata m !! a) ->
  fst (title_step i m) = Ret tt.
Proof.
  intros A M. unfold title_step. destruct (titled i) as [n|e].
  - pose proof (retitle_ok n (retitled i) m a A M) as R.
    destruct (retitle n (retitled i) m) as [[[]|e] m'];
      cbn [fst] in *; [reflexivity|discriminate].
  - apply (retitle_ok _ _ m a A M).
Qed.

(** X28.  In a window that satisfies the invariant of X26, sending a
    text that is not blank always stores the message and starts the
    worker: with an active chat the message is appended to that chat's
    record; with none (the active chat was deleted) a chat is created
    first and its record is that one message.  Ids are not empty. *)
Theorem send_message_stores_message
        (text : str) (i : send_inputs) (win : MainWindow) :
  window_invariant win ->
  strip text <> [] ->
  active_chat_id (chat_manager win) <> Some [] ->
  new_chat_id i <> [] ->
  exists a msgs h,
    fst (send_message text i win) = Ret (Some (strip text, h)) /\
    active_chat_id (chat_manager (snd (send_message text i win))) = Some a /\
    chat_files (chat_manager (snd (send_message text i win))) !! a
    = Some (msgs ++ [Stored USER (strip text) (saved i)]) /\
    match active_chat_id (chat_manager win) with
    | None => a = new_chat_id i /\ msgs = []
    | Some b => a = b /\ chat_files (chat_manager win) !! b = Some msgs
    end.
Proof.
  intros J Htext Hact Hnew. unfold send_message.
  destruct (strip text) as [|c0 cs] eqn:S; [congruence|].
  set (message := c0 :: cs).
  set (win1 := match active_chat_id (chat_manager win) with
               | None => window_create_new_chat (new_chat_id i) (created i) win
               | Some _ => win
               end).
  assert (H1 : window_invariant win1 /\
    exists a msgs,
      a <> [] /\
      active_chat_id (chat_manager win1) = Some a /\
      chat_files (chat_manager win1) !! a = Some msgs /\
      match active_chat_id (chat_manager win) with
      | None => a = new_chat_id i /\ msgs = []
      | Some b => a = b /\ chat_files (chat_manager win) !! b = Some msgs
      end).
  { unfold win1. destruct (active_chat_id (chat_manager win)) as [b|] eqn:A.
    - split; [exact J|]. destruct (proj2 J b A) as (msgs & F & _).
      exists b, msgs. rewrite A. repeat split; try assumption. congruence.
    - split; [apply window_create_invariant, J|].
      exists (new_chat_id i), []. rewrite window_create_eq.
      cbn [chat_manager]. unfold create_new_chat. store_simpl.
      rewrite lookup_insert_eq. repeat split; assumption. }
  destruct H1 as (J1 & a & msgs & Ha & A1 & F1 & Hcase).
  destruct win1 as [m1 h1 bs1]. cbn [chat_manager history chat_buttons] in *.
  destruct (proj2 (proj2 (proj1 J1)) a A1) as [e M1].
  destruct (save_message_appends_aux m1 a USER message (saved i) e A1 Ha M1)
    as (R & F2 & M2 & _ & A2 & _).
  rewrite F1 in F2. cbn [or_empty] in F2.
  pose proof (save_invariant_of m1 h1 bs1 J1 USER message (saved i)) as Hs2.
  destruct (save_message USER message (saved i) m1) as [r m2].
  cbn [fst snd] in *. subst r.
  assert (N : exists b, is_new_chat m2 = Ret b).
  { unfold is_new_chat. rewrite A2, M2. cbn [messages]. eauto. }
  destruct N as [b ->].
  exists a, msgs, (h1 ++ [Msg USER message]).
  destruct b.
  - destruct (title_step_frame i m2 Hs2) as (_ & F3 & A3).
    pose proof (title_step_ok i m2 a A2 ltac:(rewrite M2; eauto)) as T.
    destruct (title_step i m2) as [r3 m3]. cbn [fst snd] in *. subst r3.
    cbn [fst snd chat_manager]. rewrite A3, F3.
    split; [reflexivity|]. split; [exact A2|]. split; [exact F2|exact Hcase].
  - cbn [fst snd chat_manager].
    split; [reflexivity|]. split; [exact A2|]. split; [exact F2|exact Hcase].
Qed.

Lemma send_message_stores_message_witness :
  exists a msgs h,
    fst (send_message (py " hi ") example_inputs example_window)
    = Ret (Some (strip (py " hi "), h)) /\
    active_chat_id
      (chat_manager (snd (send_message (py " hi ") example_inputs example_window)))
    = Some a /\
    chat_files
      (chat_manager (snd (send_message (py " hi ") example_inputs example_window)))
    !! a
    = Some (msgs ++ [Stored USER (strip (py " hi ")) (saved example_inputs)]) /\
    match active_chat_id (chat_manager example_window) with
    | None => a = new_chat_id example_inputs /\ msgs = []
    | Some b => a = b /\ chat_files (chat_manager example_window) !! b = Some msgs
    end.
Proof.
  apply send_message_stores_message.
  - apply window_init_invariant.
  - vm_compute. discriminate.
  - vm_compute. discriminate.
  - discriminate.
Defined.
